(** * Pattern aggregation engine of the skill-refinement scripts

    A shallow embedding of [skill-refinement/scripts/aggregate_patterns.py]
    together with the parts of [common/models.py] and
    [common/persistence.py] it calls, and the properties of the pattern
    lifecycle proved about it.

    Modelling conventions.
    - A Python [str] is a [list ascii]: the bytes of its UTF-8 encoding.
      The character classes of [re] and of [str.strip], [str.split] and
      [str.lower] are the ASCII ones, and [len] and the slices count
      bytes.
    - The status icons are the literals of the source file, character
      for character: strings of three and of four characters.  The class
      of the block expression is the set of their characters and accepts
      one character.
    - A [datetime] is kept as the text [isoformat] renders; every
      operation receives the current time as an argument.  The function
      [datetime.fromisoformat] is a parameter of the model (the class
      [Datetime]): what is proved holds for every way of reading a text
      as a datetime.
    - A [float] score is an exact rational.
    - The two documents are the state; every operation maps a state to a
      result and a new state.  The aggregator is the default one, whose
      directory is [USER_REFINEMENTS_DIR]. *)

From Stdlib Require Import ZArith QArith Qminmax Lqa Ascii String DecimalPos DecimalZ.
From stdpp Require Import base list strings gmap.

Local Open Scope Z_scope.
Local Open Scope string_scope.
Local Open Scope list_scope.

Abbreviation text := (list ascii).

(** A string literal as a text. *)
Definition txt (s : string) : text := list_ascii_of_string s.

(* ===================================================================== *)
(** ** Strings: the operations of [str] and [re] the scripts use *)
(* ===================================================================== *)

Module Str.

Definition nl : ascii := "010"%char.

(** [c.isspace()] on ASCII: tab, line feed, vertical tab, form feed,
    carriage return, the four separators 28 to 31, and the space. *)
Definition isspace (c : ascii) : bool :=
  let n := nat_of_ascii c in
  ((9 <=? n) && (n <=? 13) || (28 <=? n) && (n <=? 32))%nat.

(** [\d] *)
Definition isdigit (c : ascii) : bool :=
  let n := nat_of_ascii c in ((48 <=? n) && (n <=? 57))%nat.

(** [.] without DOTALL *)
Definition notnl (c : ascii) : bool := negb (Ascii.eqb c nl).

Definition lower_char (c : ascii) : ascii :=
  let n := nat_of_ascii c in
  if ((65 <=? n) && (n <=? 90))%nat then ascii_of_nat (n + 32) else c.

(** [s.lower()] *)
Definition lower (s : text) : text := map lower_char s.

(** The rest of [s] after the literal [p], when [s] starts with it. *)
Fixpoint drop_prefix (p s : text) : option text :=
  match p with
  | [] => Some s
  | a :: p' =>
      match s with
      | [] => None
      | b :: s' => if Ascii.eqb a b then drop_prefix p' s' else None
      end
  end.

(** [s.startswith(p)] *)
Definition startswith (p s : text) : bool :=
  match drop_prefix p s with Some _ => true | None => false end.

(** [s.split(p, 1)] when [p] occurs in [s]: the text before the first
    occurrence and the text after it. *)
Fixpoint find_sub (p s : text) : option (text * text) :=
  match drop_prefix p s with
  | Some r => Some ([], r)
  | None =>
      match s with
      | [] => None
      | c :: s' =>
          match find_sub p s' with
          | Some (b, a) => Some (c :: b, a)
          | None => None
          end
      end
  end.

(** [p in s] *)
Definition contains (p s : text) : bool :=
  match find_sub p s with Some _ => true | None => false end.

(** The longest prefix of characters in the class [f], and the rest: a
    greedy [[f]*]. *)
Fixpoint span (f : ascii -> bool) (s : text) : text * text :=
  match s with
  | [] => ([], [])
  | c :: s' =>
      if f c then let '(a, b) := span f s' in (c :: a, b) else ([], s)
  end.

(** [s.lstrip()], [s.rstrip()], [s.strip()] *)
Fixpoint lstrip (s : text) : text :=
  match s with
  | [] => []
  | c :: s' => if isspace c then lstrip s' else s
  end.

Definition rstrip (s : text) : text := rev (lstrip (rev s)).

Definition strip (s : text) : text := rstrip (lstrip s).

(** [s.strip("-")] *)
Fixpoint lstrip_char (d : ascii) (s : text) : text :=
  match s with
  | [] => []
  | c :: s' => if Ascii.eqb c d then lstrip_char d s' else s
  end.

Definition strip_char (d : ascii) (s : text) : text :=
  rev (lstrip_char d (rev (lstrip_char d s))).

(** [s.split(d)] for a one-character separator: every separator cuts,
    empty pieces are kept. *)
Fixpoint split_char (d : ascii) (s : text) : list text :=
  match s with
  | [] => [[]]
  | c :: s' =>
      match split_char d s' with
      | [] => [[]]
      | w :: ws => if Ascii.eqb c d then [] :: w :: ws else (c :: w) :: ws
      end
  end.

(** [s.split()]: the maximal runs of characters that are not spaces.
    [cur] is the run being read, in reverse. *)
Fixpoint words_from (cur : text) (s : text) : list text :=
  match s with
  | [] => match cur with [] => [] | _ => [rev cur] end
  | c :: s' =>
      if isspace c
      then match cur with
           | [] => words_from [] s'
           | _ => rev cur :: words_from [] s'
           end
      else words_from (c :: cur) s'
  end.

Definition split (s : text) : list text := words_from [] s.

(** [sep.join(l)] *)
Fixpoint join (sep : text) (l : list text) : text :=
  match l with
  | [] => []
  | [x] => x
  | x :: l' => x ++ sep ++ join sep l'
  end.

(** [s.replace(a, b)] for single characters. *)
Definition replace_char (a b : ascii) (s : text) : text :=
  map (fun c => if Ascii.eqb c a then b else c) s.

(** [set(l)]: the distinct elements, first occurrences kept. *)
Fixpoint dedup_text (l : list text) : list text :=
  match l with
  | [] => []
  | x :: l' =>
      if bool_decide (x ∈ l') then dedup_text l' else x :: dedup_text l'
  end.

(** The number of bytes of the UTF-8 character that begins with [c]. *)
Definition char_width (c : ascii) : nat :=
  let n := nat_of_ascii c in
  if (n <? 192)%nat then 1
  else if (n <? 224)%nat then 2
  else if (n <? 240)%nat then 3
  else 4.

(** [list(s)]: the characters of a text, each as the bytes that encode
    it. *)
Fixpoint characters_from (fuel : nat) (s : text) : list text :=
  match fuel, s with
  | S fuel, c :: _ =>
      take (char_width c) s :: characters_from fuel (drop (char_width c) s)
  | _, _ => []
  end.

Definition characters (s : text) : list text :=
  characters_from (length s) s.

(** *** Decimal numerals *)

Fixpoint uint_text (d : Decimal.uint) : text :=
  match d with
  | Decimal.Nil => []
  | Decimal.D0 d => "0"%char :: uint_text d
  | Decimal.D1 d => "1"%char :: uint_text d
  | Decimal.D2 d => "2"%char :: uint_text d
  | Decimal.D3 d => "3"%char :: uint_text d
  | Decimal.D4 d => "4"%char :: uint_text d
  | Decimal.D5 d => "5"%char :: uint_text d
  | Decimal.D6 d => "6"%char :: uint_text d
  | Decimal.D7 d => "7"%char :: uint_text d
  | Decimal.D8 d => "8"%char :: uint_text d
  | Decimal.D9 d => "9"%char :: uint_text d
  end.

(** The numeral a text of digits spells; a character that is no digit
    ends it. *)
Fixpoint text_uint (s : text) : Decimal.uint :=
  match s with
  | [] => Decimal.Nil
  | c :: s' =>
      let d := text_uint s' in
      if Ascii.eqb c "0" then Decimal.D0 d
      else if Ascii.eqb c "1" then Decimal.D1 d
      else if Ascii.eqb c "2" then Decimal.D2 d
      else if Ascii.eqb c "3" then Decimal.D3 d
      else if Ascii.eqb c "4" then Decimal.D4 d
      else if Ascii.eqb c "5" then Decimal.D5 d
      else if Ascii.eqb c "6" then Decimal.D6 d
      else if Ascii.eqb c "7" then Decimal.D7 d
      else if Ascii.eqb c "8" then Decimal.D8 d
      else if Ascii.eqb c "9" then Decimal.D9 d
      else Decimal.Nil
  end.

(** [str(n)] for an [int]. *)
Definition str_int (n : Z) : text :=
  match Z.to_int n with
  | Decimal.Pos d => uint_text d
  | Decimal.Neg d => "-"%char :: uint_text d
  end.

(** [int(s)] for a text matched by [\d+]. *)
Definition int_of (s : text) : Z := Z.of_uint (text_uint s).

(** [f"{n:03d}"] for a natural [n]: at least three digits. *)
Definition pad3 (n : Z) : text :=
  let s := str_int n in
  repeat "0"%char (3 - length s) ++ s.

(** *** Regular-expression drivers *)

(** [re.search]: the result of the first position of [s] at which the
    expression, read by [m], matches. *)
Fixpoint re_search {A} (m : text -> option A) (s : text) : option A :=
  match m s with
  | Some v => Some v
  | None =>
      match s with
      | [] => None
      | _ :: s' => re_search m s'
      end
  end.

(** [re.findall]: [m] reads one match at the start of its argument and
    returns the capture and what is left after the match.  The scan moves
    on by one character where nothing matches and resumes after a match;
    [skip] counts the characters of the last match still to pass. *)
Fixpoint re_findall_from {A} (m : text -> option (A * text))
    (skip : nat) (s : text) : list A :=
  match s with
  | [] => []
  | _ :: s' =>
      match skip with
      | S k => re_findall_from m k s'
      | O =>
          match m s with
          | Some (v, rest) =>
              v :: re_findall_from m (length s' - length rest) s'
          | None => re_findall_from m 0 s'
          end
      end
  end.

Definition re_findall {A} (m : text -> option (A * text)) (s : text)
  : list A := re_findall_from m 0 s.

End Str.

Import Str.

(* ===================================================================== *)
(** ** Records: [common/models.py] *)
(* ===================================================================== *)

Inductive PatternStatus : Type :=
  | TRACKING
  | READY
  | GENERALIZED
  | DISMISSED.

#[global] Instance PatternStatus_eq_dec : EqDecision PatternStatus.
Proof. solve_decision. Defined.

(** [PatternStatus.value] *)
Definition PatternStatus_value (s : PatternStatus) : text :=
  match s with
  | TRACKING => txt "tracking"
  | READY => txt "ready-for-generalization"
  | GENERALIZED => txt "generalized"
  | DISMISSED => txt "dismissed"
  end.

Inductive RefinementCategory : Type :=
  | TRIGGER
  | CONTENT
  | HOOK
  | TOOL
  | PATTERN
  | CONFIG
  | NEW.

(** [RefinementCategory.value] *)
Definition RefinementCategory_value (c : RefinementCategory) : text :=
  match c with
  | TRIGGER => txt "trigger"
  | CONTENT => txt "content"
  | HOOK => txt "hook"
  | TOOL => txt "tool"
  | PATTERN => txt "pattern"
  | CONFIG => txt "config"
  | NEW => txt "new"
  end.

(** The text [datetime.isoformat] renders. *)
Abbreviation datetime := (list ascii).

(** The fields of a [Refinement] the aggregator reads. *)
Module Refinement.
Record t : Type := Build {
  id : text;
  skill : text;
  category : RefinementCategory;
  target_section : text;
  expected_behavior : text;
  actual_behavior : text;
  project : text
}.
End Refinement.

(** A [Pattern].  [proposed_changes], [generalized_date] and
  [dismissed_reason] keep their defaults throughout the aggregator and
  are left out.  [category] and [notes] are no fields of the dataclass:
  they are the attributes the aggregator probes with [hasattr], absent
  ([None]) on every object the constructor builds. *)
Module Pattern.
Record t : Type := Build {
  id : text;
  name : text;
  description : text;
  affected_skills : list text;
  refinement_ids : list text;
  projects : list text;
  count : Z;
  status : PatternStatus;
  first_seen : datetime;
  last_seen : datetime;
  category : option text;
  notes : option text
}.

Definition set_status (s : PatternStatus) (p : t) : t :=
  Build (id p) (name p) (description p) (affected_skills p)
    (refinement_ids p) (projects p) (count p) s (first_seen p)
    (last_seen p) (category p) (notes p).

Definition set_notes (n : option text) (p : t) : t :=
  Build (id p) (name p) (description p) (affected_skills p)
    (refinement_ids p) (projects p) (count p) (status p) (first_seen p)
    (last_seen p) (category p) n.
End Pattern.

(** [GENERALIZATION_THRESHOLD] and [SIMILARITY_THRESHOLD] *)
Definition GENERALIZATION_THRESHOLD : Z := 2.
Definition SIMILARITY_THRESHOLD : Q := 6 # 10.

(* ===================================================================== *)
(** ** Pattern matching *)
(* ===================================================================== *)

Definition is_terminal (s : PatternStatus) : bool :=
  match s with
  | GENERALIZED | DISMISSED => true
  | TRACKING | READY => false
  end.

(** [hasattr(pattern, 'category') and
     refinement.category.value == pattern.category] *)
Definition category_matches (r : Refinement.t) (p : Pattern.t) : bool :=
  match Pattern.category p with
  | Some c => bool_decide (RefinementCategory_value (Refinement.category r) = c)
  | None => false
  end.

(** [ref_words], [pattern_words] and [ref_words & pattern_words] *)
Definition ref_words (r : Refinement.t) : list text :=
  dedup_text (split (lower (Refinement.expected_behavior r))
              ++ split (lower (Refinement.actual_behavior r))).

Definition pattern_words (p : Pattern.t) : list text :=
  dedup_text (split (lower (Pattern.description p))).

Definition common_words (r : Refinement.t) (p : Pattern.t) : list text :=
  filter (fun w => w ∈ pattern_words p) (ref_words r).

(** [PatternAggregator._calculate_similarity] *)
Definition _calculate_similarity (r : Refinement.t) (p : Pattern.t) : Q :=
  let score := 0%Q in
  let score :=
    if bool_decide (Refinement.skill r ∈ Pattern.affected_skills p)
    then (score + (3 # 10))%Q else score in
  let score :=
    if negb (bool_decide (Refinement.target_section r = []))
       && contains (Refinement.target_section r) (Pattern.description p)
    then (score + (3 # 10))%Q else score in
  let score :=
    if category_matches r p then (score + (2 # 10))%Q else score in
  let score :=
    if negb (bool_decide (common_words r p = []))
    then
      let overlap :=
        (inject_Z (Z.of_nat (length (common_words r p)))
         / inject_Z (Z.of_nat (Nat.max (Nat.max (length (ref_words r))
                                         (length (pattern_words p))) 1)))%Q
      in
      (score + (2 # 10) * overlap)%Q
    else score in
  Qmin score 1.

(** [PatternAggregator._find_matching_pattern]: the object the loop
    returns, with its position in [patterns], through which the caller
    updates it in place; [i] is the position of the head of the list. *)
Fixpoint _find_matching_pattern_from (r : Refinement.t) (i : nat)
    (patterns : list Pattern.t) : option (nat * Pattern.t) :=
  match patterns with
  | [] => None
  | pattern :: rest =>
      if is_terminal (Pattern.status pattern)
      then _find_matching_pattern_from r (S i) rest
      else if contains (Refinement.target_section r)
                (Pattern.description pattern)
              && Qle_bool SIMILARITY_THRESHOLD
                   (_calculate_similarity r pattern)
      then Some (i, pattern)
      else if Qle_bool SIMILARITY_THRESHOLD (_calculate_similarity r pattern)
      then Some (i, pattern)
      else _find_matching_pattern_from r (S i) rest
  end.

Definition _find_matching_pattern (r : Refinement.t)
    (patterns : list Pattern.t) : option (nat * Pattern.t) :=
  _find_matching_pattern_from r 0 patterns.

(* ===================================================================== *)
(** ** The patterns document: [aggregated-patterns.md] *)
(* ===================================================================== *)

(** [status_icons] of [_format_pattern]: the four literals of the source
    file, of three and of four characters. *)
Definition icon (s : PatternStatus) : text :=
  match s with
  | TRACKING => txt "âšª"
  | READY => txt "ðŸŸ¡"
  | GENERALIZED => txt "âœ…"
  | DISMISSED => txt "â›”"
  end.

(** [PatternAggregator._format_pattern]: the lines of one entry. *)
Definition _format_pattern (p : Pattern.t) : list text :=
  [ txt "### " ++ icon (Pattern.status p) ++ txt " " ++ Pattern.id p
      ++ txt ": " ++ Pattern.name p;
    txt "- **First seen:** " ++ Pattern.first_seen p;
    txt "- **Last seen:** " ++ Pattern.last_seen p;
    txt "- **Count:** " ++ str_int (Pattern.count p);
    txt "- **Status:** " ++ PatternStatus_value (Pattern.status p);
    txt "";
    txt "**Affected Skills:**" ]
  ++ map (fun skill => txt "- " ++ skill) (Pattern.affected_skills p)
  ++ [ txt ""; txt "**Description:**"; Pattern.description p; txt "" ]
  ++ (if bool_decide (Pattern.projects p = []) then []
      else [ txt "**Projects:** " ++ join (txt ", ") (Pattern.projects p) ])
  ++ (if bool_decide (Pattern.refinement_ids p = []) then []
      else [ txt "**Refinement IDs:** "
               ++ join (txt ", ") (Pattern.refinement_ids p) ])
  ++ [ txt ""; txt "---"; txt "" ].

Definition with_status (s : PatternStatus) (patterns : list Pattern.t)
  : list Pattern.t :=
  filter (fun p => Pattern.status p = s) patterns.

(** One status section of the document: its entries, or the line that
    says there are none. *)
Definition section_lines (none : text) (l : list Pattern.t) : list text :=
  match l with
  | [] => [ none; txt "" ]
  | _ => concat (map _format_pattern l)
  end.

(** The lines [PatternAggregator._save_patterns] joins. *)
Definition document_lines (now : datetime) (patterns : list Pattern.t)
  : list text :=
  [ txt "# Aggregated Refinement Patterns";
    txt "";
    txt "> Auto-updated when pattern count >= "
      ++ str_int GENERALIZATION_THRESHOLD;
    txt "> Last updated: " ++ now;
    txt "";
    txt "## Ready for Generalization";
    txt "" ]
  ++ section_lines (txt "*No patterns ready for generalization*")
       (with_status READY patterns)
  ++ [ txt "---"; txt ""; txt "## Tracking (count < threshold)"; txt "" ]
  ++ section_lines (txt "*No patterns currently tracking*")
       (with_status TRACKING patterns)
  ++ [ txt "---"; txt ""; txt "## Generalized (Applied)"; txt "" ]
  ++ section_lines (txt "*No patterns generalized yet*")
       (with_status GENERALIZED patterns)
  ++ match with_status DISMISSED patterns with
     | [] => []
     | dismissed =>
         [ txt "---"; txt ""; txt "## Dismissed"; txt "" ]
         ++ concat (map _format_pattern dismissed)
     end.

(** The text [PatternAggregator._save_patterns] writes. *)
Definition _save_patterns (now : datetime) (patterns : list Pattern.t)
  : text :=
  join [nl] (document_lines now patterns).

(** One character of a class at the start of [s]: the character and the
    rest of [s]. *)
Fixpoint read_class (class : list text) (s : text) : option (text * text) :=
  match class with
  | [] => None
  | c :: class' =>
      match drop_prefix c s with
      | Some r => Some (c, r)
      | None => read_class class' s
      end
  end.

(** The class [[âšªðŸŸ¡âœ…â›”]] of the block expression: the
    characters of the four literals. *)
Definition icon_class : list text := characters (txt "âšªðŸŸ¡âœ…â›”").

Definition read_icon (s : text) : option (text * text) :=
  read_class icon_class s.

(** [status_map] of [_load_patterns], keyed by the four literals, and
    [status_map.get(status_icon, PatternStatus.TRACKING)]. *)
Definition status_map : list (text * PatternStatus) :=
  [ (txt "âšª", TRACKING);
    (txt "ðŸŸ¡", READY);
    (txt "âœ…", GENERALIZED);
    (txt "â›”", DISMISSED) ].

Fixpoint dict_get {A} (d : list (text * A)) (key : text) (fallback : A) : A :=
  match d with
  | [] => fallback
  | (k, v) :: d' => if bool_decide (k = key) then v else dict_get d' key fallback
  end.

(** The lookahead [### [icons] PATTERN-] of the block expression. *)
Definition header_ahead (s : text) : bool :=
  match drop_prefix (txt "### ") s with
  | None => false
  | Some r =>
      match read_icon r with
      | None => false
      | Some (_, r) => startswith (txt " PATTERN-") r
      end
  end.

(** The lazy [(.+?)] of a block after its first character: up to the
    next lookahead or the end of the text. *)
Fixpoint until_header (s : text) : text * text :=
  match s with
  | [] => ([], [])
  | c :: s' =>
      if header_ahead s then ([], s)
      else let '(b, r) := until_header s' in (c :: b, r)
  end.

(** One match of
    [### ([icons]) (PATTERN-\d+): (.+?)\n(.+?)(?=### [icons] PATTERN-|\Z)]
    under DOTALL at the start of [s]: the four groups, and the text after
    the match. *)
Definition pattern_block (s : text)
  : option ((text * text * text * text) * text) :=
  match drop_prefix (txt "### ") s with
  | None => None
  | Some r =>
  match read_icon r with
  | None => None
  | Some (status_icon, r) =>
  match drop_prefix (txt " PATTERN-") r with
  | None => None
  | Some r =>
  match span isdigit r with
  | ([], _) => None
  | (digits, r) =>
  match drop_prefix (txt ": ") r with
  | None => None
  | Some [] => None
  | Some (c :: r) =>
  match find_sub [nl] r with
  | None => None
  | Some (_, []) => None
  | Some (name_rest, d :: r) =>
      let '(block_rest, rest) := until_header r in
      Some ((status_icon, txt "PATTERN-" ++ digits, c :: name_rest,
             d :: block_rest),
            rest)
  end end end end end end.

(** [\*\*Count:\*\* (\d+)] *)
Definition count_at (s : text) : option text :=
  match drop_prefix (txt "**Count:** ") s with
  | None => None
  | Some r => match span isdigit r with
              | ([], _) => None
              | (digits, _) => Some digits
              end
  end.

(** The lines [- .+\n] at the start of [s], greedily: the text of the
    group [((?:- .+\n)+)], empty when the first line is no such line. *)
Fixpoint item_lines (fuel : nat) (s : text) : text :=
  match fuel with
  | O => []
  | S fuel =>
      match drop_prefix (txt "- ") s with
      | None => []
      | Some r =>
          match span notnl r with
          | ([], _) => []
          | (_, []) => []
          | (body, c :: r') => txt "- " ++ body ++ [c] ++ item_lines fuel r'
          end
      end
  end.

(** [\*\*Affected Skills:\*\*\n((?:- .+\n)+)] *)
Definition skills_at (s : text) : option text :=
  match drop_prefix (txt "**Affected Skills:**" ++ [nl]) s with
  | None => None
  | Some r => match item_lines (length r) r with
              | [] => None
              | items => Some items
              end
  end.

(** One match of [- (.+?)(?:\n|$)] at the start of [s]. *)
Definition item_at (s : text) : option (text * text) :=
  match drop_prefix (txt "- ") s with
  | None => None
  | Some r =>
      match span notnl r with
      | ([], _) => None
      | (body, []) => Some (body, [])
      | (body, _ :: r') => Some (body, r')
      end
  end.

(** [\*\*Key:\*\* (.+)] for a key: the rest of the line, not empty. *)
Definition line_after (key : text) (s : text) : option text :=
  match drop_prefix key s with
  | None => None
  | Some r => match span notnl r with
              | ([], _) => None
              | (body, _) => Some body
              end
  end.

(** The lazy [(.+?)(?=\*\*|$)] under DOTALL after its first character;
    [$] holds at the end and before a last line feed. *)
Fixpoint until_stars (s : text) : text :=
  match s with
  | [] => []
  | c :: s' =>
      if startswith (txt "**") s || bool_decide (s = [nl]) then []
      else c :: until_stars s'
  end.

(** [\*\*Description:\*\*\n(.+?)(?=\*\*|$)] under DOTALL *)
Definition description_at (s : text) : option text :=
  match drop_prefix (txt "**Description:**" ++ [nl]) s with
  | None => None
  | Some [] => None
  | Some (c :: r) => Some (c :: until_stars r)
  end.

(** [datetime.fromisoformat] as the scripts use it: the datetime a text
    is read as, in the rendering of [isoformat], and [None] where the
    library raises [ValueError].  The function is left open. *)
Class Datetime : Type := {
  fromisoformat : text -> option datetime
}.

Section Aggregator.
Context {library : Datetime}.

(** The body of the loop of [PatternAggregator._load_patterns]. *)
Definition parse_pattern (now : datetime)
    (m : text * text * text * text) : Pattern.t :=
  let '(status_icon, pattern_id, name, block) := m in
  let status := dict_get status_map status_icon TRACKING in
  let count :=
    match re_search count_at block with
    | Some digits => int_of digits
    | None => 1
    end in
  let skills :=
    match re_search skills_at block with
    | Some items => re_findall item_at items
    | None => []
    end in
  let refs :=
    match re_search (line_after (txt "**Refinement IDs:** ")) block with
    | Some l => map strip (split_char "," l)
    | None => []
    end in
  let projects :=
    match re_search (line_after (txt "**Projects:** ")) block with
    | Some l => map strip (split_char "," l)
    | None => []
    end in
  let description :=
    match re_search description_at block with
    | Some d => strip d
    | None => name
    end in
  let seen key :=
    match re_search (line_after key) block with
    | Some l => match fromisoformat (strip l) with
                | Some d => d
                | None => now
                end
    | None => now
    end in
  Pattern.Build pattern_id (strip name) description skills refs projects
    count status (seen (txt "**First seen:** "))
    (seen (txt "**Last seen:** ")) None None.

(** [PatternAggregator._load_patterns] on the text of the document. *)
Definition load_text (now : datetime) (content : text) : list Pattern.t :=
  map (parse_pattern now) (re_findall pattern_block content).

(* ===================================================================== *)
(** ** The two documents and their templates: [common/persistence.py] *)
(* ===================================================================== *)

(** The patterns document and the queue document; [None] is a file that
    does not exist. *)
Record Files : Type := {
  patterns_file : option text;
  queue_file : option text
}.

Definition write_patterns (content : text) (fs : Files) : Files :=
  {| patterns_file := Some content; queue_file := queue_file fs |}.

Definition write_queue (content : text) (fs : Files) : Files :=
  {| patterns_file := patterns_file fs; queue_file := Some content |}.

Definition _get_aggregated_patterns_template (now : datetime) : text :=
  join [nl]
    [ txt "# Aggregated Refinement Patterns";
      txt "";
      txt "> Auto-updated when pattern count >= "
        ++ str_int GENERALIZATION_THRESHOLD;
      txt "> Last aggregation: " ++ now;
      txt "";
      txt "## Ready for Generalization (count >= "
        ++ str_int GENERALIZATION_THRESHOLD ++ txt ")";
      txt "";
      txt "<!-- Patterns ready for user-scope application -->";
      txt "";
      txt "## Tracking (count = 1)";
      txt "";
      txt "<!-- Patterns being tracked for future generalization -->";
      txt "";
      txt "## Archived (Generalized)";
      txt "";
      txt "<!-- Patterns already applied to user-scope skills -->";
      txt "" ].

Definition _get_generalization_queue_template : text :=
  join [nl]
    [ txt "# Generalization Queue";
      txt "";
      txt "> Refinements ready for user-scope skill updates";
      txt "> Review and apply with: /apply-generalization [PATTERN-ID]";
      txt "";
      txt "## Ready for Review";
      txt "";
      txt "<!-- Patterns ready for generalization -->";
      txt "";
      txt "---";
      txt "";
      txt "## Pending More Data";
      txt "";
      txt "<!-- Patterns with count = 1, awaiting second occurrence -->";
      txt "" ].

(** [ensure_user_refinements_dir], for the two documents of the
    aggregator: a missing file is created from its template. *)
Definition ensure_user_refinements_dir (now : datetime) (fs : Files)
  : Files :=
  {| patterns_file :=
       Some (default (_get_aggregated_patterns_template now)
               (patterns_file fs));
     queue_file :=
       Some (default _get_generalization_queue_template (queue_file fs)) |}.

(** One match of [PATTERN-(\d+)] at the start of [s]. *)
Definition id_at (s : text) : option (text * text) :=
  match drop_prefix (txt "PATTERN-") s with
  | None => None
  | Some r => match span isdigit r with
              | ([], _) => None
              | (digits, rest) => Some (digits, rest)
              end
  end.

(** [get_pattern_id] *)
Definition get_pattern_id (fs : Files) : text :=
  match patterns_file fs with
  | None => txt "PATTERN-001"
  | Some content =>
      match re_findall id_at content with
      | [] => txt "PATTERN-001"
      | m :: matches =>
          let max_id := foldr Z.max (int_of m) (map int_of matches) in
          txt "PATTERN-" ++ pad3 (max_id + 1)
      end
  end.

(* ===================================================================== *)
(** ** The generalization queue: [generalization-queue.md] *)
(* ===================================================================== *)

Definition _create_queue_header : text :=
  join [nl]
    [ txt "# Generalization Queue";
      txt "";
      txt "> Refinements ready for user-scope skill updates";
      txt "> Review and apply with: /apply-generalization [PATTERN-ID]";
      txt "";
      txt "" ].

(** [PatternAggregator._format_queue_entry] *)
Definition _format_queue_entry (p : Pattern.t) : text :=
  let level :=
    if (3 <=? Pattern.count p)%Z then txt "High" else txt "Medium" in
  join [nl]
    [ txt "### " ++ Pattern.id p ++ txt ": " ++ Pattern.name p;
      txt "- **Priority:** " ++ level ++ txt " ("
        ++ str_int (Pattern.count p) ++ txt " occurrences)";
      txt "- **Confidence:** " ++ level ++ txt " (consistent pattern)";
      txt "- **Breaking Changes:** None (additive)";
      txt "";
      txt "**Skills to Update:**";
      join [nl] (map (fun skill => txt "- " ++ skill)
                   (Pattern.affected_skills p));
      txt "";
      txt "**To Apply:**";
      txt "```bash";
      txt "/apply-generalization " ++ Pattern.id p;
      txt "```";
      txt "";
      txt "---";
      txt "";
      txt "" ].

(** [PatternAggregator._add_to_generalization_queue] *)
Definition _add_to_generalization_queue (now : datetime) (p : Pattern.t)
    (fs : Files) : Files :=
  let fs := ensure_user_refinements_dir now fs in
  let content := default _create_queue_header (queue_file fs) in
  if contains (Pattern.id p) content then fs
  else
    let entry := _format_queue_entry p in
    let content :=
      match find_sub (txt "## Ready for Review") content with
      | Some (before, after) =>
          before ++ txt "## Ready for Review" ++ [nl; nl] ++ entry
            ++ lstrip after
      | None =>
          content ++ [nl] ++ txt "## Ready for Review" ++ [nl; nl] ++ entry
      end in
    write_queue content fs.

(** The lazy [.+?] of the removal expression after its first character:
    what is left of [s] from the next [### PATTERN-], or nothing. *)
Fixpoint after_entry (s : text) : text :=
  match s with
  | [] => []
  | _ :: s' => if startswith (txt "### PATTERN-") s then s else after_entry s'
  end.

(** One match of [### {pattern_id}: .+?(?=### PATTERN-|\Z)] under DOTALL
    at the start of [s]: the text after the match.  The id is read as a
    literal; the ids the callers pass are made of letters, digits and
    the hyphen. *)
Definition entry_at (pattern_id : text) (s : text) : option text :=
  match drop_prefix (txt "### " ++ pattern_id ++ txt ": ") s with
  | None => None
  | Some [] => None
  | Some (_ :: r) => Some (after_entry r)
  end.

(** [re.sub(expr, "", s)]: every match, read by [m], is deleted. *)
Fixpoint re_delete_from (m : text -> option text) (skip : nat) (s : text)
  : text :=
  match s with
  | [] => []
  | c :: s' =>
      match skip with
      | S k => re_delete_from m k s'
      | O =>
          match m s with
          | Some rest => re_delete_from m (length s' - length rest) s'
          | None => c :: re_delete_from m 0 s'
          end
      end
  end.

(** [PatternAggregator._remove_from_queue] *)
Definition _remove_from_queue (pattern_id : text) (fs : Files) : Files :=
  match queue_file fs with
  | None => fs
  | Some content =>
      write_queue (re_delete_from (entry_at pattern_id) 0 content) fs
  end.

(* ===================================================================== *)
(** ** Pattern creation and update *)
(* ===================================================================== *)

(** [re.sub(r"-+", "-", s)] *)
Fixpoint squeeze_hyphens (s : text) : text :=
  match s with
  | [] => []
  | c :: s' =>
      match s' with
      | d :: _ =>
          if Ascii.eqb c "-" && Ascii.eqb d "-" then squeeze_hyphens s'
          else c :: squeeze_hyphens s'
      | [] => [c]
      end
  end.

(** The class [[a-z0-9-]] *)
Definition is_slug_char (c : ascii) : bool :=
  let n := nat_of_ascii c in
  ((97 <=? n) && (n <=? 122) || (48 <=? n) && (n <=? 57) || (n =? 45))%nat.

(** [PatternAggregator._generate_pattern_name] *)
Definition _generate_pattern_name (r : Refinement.t) : text :=
  let words := [ RefinementCategory_value (Refinement.category r) ] in
  let words :=
    if bool_decide (Refinement.target_section r = []) then words
    else
      let target_words :=
        split (replace_char "-" " "
                 (replace_char "/" " " (Refinement.target_section r))) in
      words ++ take 2 target_words in
  let expected_words :=
    take 3 (filter (fun w => (3 < length w)%nat)
              (split (Refinement.expected_behavior r))) in
  let words := words ++ expected_words in
  let name := lower (join (txt "-") (take 5 words)) in
  let name := filter (fun c => is_slug_char c = true) name in
  let name := strip_char "-" (squeeze_hyphens name) in
  if bool_decide (name = []) then txt "pattern-" ++ Refinement.skill r
  else name.

(** [PatternAggregator._create_pattern] *)
Definition _create_pattern (now : datetime) (fs : Files)
    (r : Refinement.t) : Pattern.t :=
  let pattern_id := get_pattern_id fs in
  let name := _generate_pattern_name r in
  Pattern.Build pattern_id name
    (Refinement.target_section r ++ txt ": "
       ++ take 100 (Refinement.expected_behavior r))
    [ Refinement.skill r ]
    [ Refinement.id r ]
    (if bool_decide (Refinement.project r = []) then []
     else [ Refinement.project r ])
    1 TRACKING now now None None.

(** [l.append(x)] unless [x in l] *)
Definition add_new (x : text) (l : list text) : list text :=
  if bool_decide (x ∈ l) then l else l ++ [x].

(** [PatternAggregator._update_pattern] *)
Definition _update_pattern (now : datetime) (p : Pattern.t)
    (r : Refinement.t) : Pattern.t :=
  Pattern.Build (Pattern.id p) (Pattern.name p) (Pattern.description p)
    (add_new (Refinement.skill r) (Pattern.affected_skills p))
    (add_new (Refinement.id r) (Pattern.refinement_ids p))
    (if bool_decide (Refinement.project r = []) then Pattern.projects p
     else add_new (Refinement.project r) (Pattern.projects p))
    (Pattern.count p + 1)
    (Pattern.status p) (Pattern.first_seen p) now
    (Pattern.category p) (Pattern.notes p).

(* ===================================================================== *)
(** ** The lifecycle operations of [PatternAggregator] *)
(* ===================================================================== *)

(** [PatternAggregator.__init__] on the default directory. *)
Definition PatternAggregator (now : datetime) (fs : Files) : Files :=
  ensure_user_refinements_dir now fs.

(** [PatternAggregator._load_patterns] *)
Definition _load_patterns (now : datetime) (fs : Files) : list Pattern.t :=
  match patterns_file fs with
  | None => []
  | Some content => load_text now content
  end.

(** [PatternAggregator._save_patterns] on the state. *)
Definition save (now : datetime) (patterns : list Pattern.t) (fs : Files)
  : Files :=
  let fs := ensure_user_refinements_dir now fs in
  write_patterns (_save_patterns now patterns) fs.

(** The threshold check of [process_new_refinement]: the pattern as the
    check leaves it, and the state. *)
Definition check_threshold (now : datetime) (pattern : Pattern.t)
    (fs : Files) : Pattern.t * Files :=
  if (GENERALIZATION_THRESHOLD <=? Pattern.count pattern)%Z then
    if negb (bool_decide (Pattern.status pattern = GENERALIZED)) then
      let pattern := Pattern.set_status READY pattern in
      (pattern, _add_to_generalization_queue now pattern fs)
    else (pattern, fs)
  else (pattern, fs).

(** The first half of [process_new_refinement]: the match, and the
    pattern updated or created. *)
Definition match_or_create (now : datetime) (r : Refinement.t) (fs : Files)
  : option (nat * Pattern.t) * Pattern.t :=
  let found := _find_matching_pattern r (_load_patterns now fs) in
  (found,
   match found with
   | Some (_, matching_pattern) => _update_pattern now matching_pattern r
   | None => _create_pattern now fs r
   end).

(** The list [process_new_refinement] saves.  The list holds the very
    object the operation works on, so it shows the pattern as the
    threshold check leaves it: at the position of the match, or appended. *)
Definition processed_patterns (now : datetime) (r : Refinement.t)
    (fs : Files) : list Pattern.t :=
  let patterns := _load_patterns now fs in
  let '(found, pattern) := match_or_create now r fs in
  let pattern := fst (check_threshold now pattern fs) in
  match found with
  | Some (i, _) => <[i := pattern]> patterns
  | None => patterns ++ [pattern]
  end.

(** [PatternAggregator.process_new_refinement]: the pattern returned and
    the new state. *)
Definition process_new_refinement (now : datetime) (r : Refinement.t)
    (fs : Files) : Pattern.t * Files :=
  let '(_, pattern) := match_or_create now r fs in
  let '(pattern, fs') := check_threshold now pattern fs in
  (pattern, save now (processed_patterns now r fs) fs').

(** The status the loop of [check_all_patterns] leaves on one pattern,
    and whether the pattern was promoted. *)
Definition recheck (p : Pattern.t) : Pattern.t * bool :=
  if (GENERALIZATION_THRESHOLD <=? Pattern.count p)%Z then
    if negb (bool_decide
               (Pattern.status p ∈ [READY; GENERALIZED; DISMISSED]))
    then (Pattern.set_status READY p, true)
    else (p, false)
  else if bool_decide (Pattern.status p = READY)
  then (Pattern.set_status TRACKING p, false)
  else (p, false).

(** The loop of [check_all_patterns]: the patterns after the loop, the
    list [ready_patterns], and the state. *)
Fixpoint check_loop (now : datetime) (patterns : list Pattern.t)
    (fs : Files) : list Pattern.t * list Pattern.t * Files :=
  match patterns with
  | [] => ([], [], fs)
  | p :: rest =>
      let '(p', promoted) := recheck p in
      let fs := if promoted then _add_to_generalization_queue now p' fs
                else fs in
      let '(rest', ready_patterns, fs) := check_loop now rest fs in
      (p' :: rest', (if promoted then [p'] else []) ++ ready_patterns, fs)
  end.

(** [PatternAggregator.check_all_patterns] *)
Definition check_all_patterns (now : datetime) (fs : Files)
  : list Pattern.t * Files :=
  let patterns := _load_patterns now fs in
  let '(patterns, ready_patterns, fs) := check_loop now patterns fs in
  (ready_patterns, save now patterns fs).

(** [PatternAggregator.get_ready_patterns] *)
Definition get_ready_patterns (now : datetime) (fs : Files)
  : list Pattern.t :=
  with_status READY (_load_patterns now fs).

(** [PatternAggregator.get_pattern_by_id] *)
Definition get_pattern_by_id (now : datetime) (pattern_id : text)
    (fs : Files) : option Pattern.t :=
  snd <$> list_find (fun p => Pattern.id p = pattern_id)
            (_load_patterns now fs).

(** [PatternAggregator.mark_generalized] *)
Definition mark_generalized (now : datetime) (pattern_id : text)
    (fs : Files) : bool * Files :=
  let patterns := _load_patterns now fs in
  match list_find (fun p => Pattern.id p = pattern_id) patterns with
  | Some (i, p) =>
      let patterns := <[i := Pattern.set_status GENERALIZED p]> patterns in
      let fs := save now patterns fs in
      (true, _remove_from_queue pattern_id fs)
  | None => (false, fs)
  end.

(** [PatternAggregator.dismiss_pattern] *)
Definition dismiss_pattern (now : datetime) (pattern_id reason : text)
    (fs : Files) : bool * Files :=
  let patterns := _load_patterns now fs in
  match list_find (fun p => Pattern.id p = pattern_id) patterns with
  | Some (i, p) =>
      let p := Pattern.set_status DISMISSED p in
      let notes := default [] (Pattern.notes p) in
      let p :=
        Pattern.set_notes
          (Some (notes ++ [nl] ++ txt "Dismissed: " ++ reason)) p in
      let patterns := <[i := p]> patterns in
      let fs := save now patterns fs in
      (true, _remove_from_queue pattern_id fs)
  | None => (false, fs)
  end.

End Aggregator.

(* ===================================================================== *)
(** ** Specification: the similarity score *)
(* ===================================================================== *)

(** The word set of a text: its lower-cased words. *)
Definition word_set (s : text) : gset text := list_to_set (split (lower s)).

(** The token-overlap ratio of a Refinement and a Pattern: the words the
    behaviour texts share with the description, over the size of the
    larger of the two word sets (1 when both are empty). *)
Definition overlap_ratio (r : Refinement.t) (p : Pattern.t) : Q :=
  let a := word_set (Refinement.expected_behavior r)
           ∪ word_set (Refinement.actual_behavior r) in
  let b := word_set (Pattern.description p) in
  (inject_Z (Z.of_nat (size (a ∩ b)))
   / inject_Z (Z.of_nat (Nat.max (Nat.max (size a) (size b)) 1)))%Q.

Definition weight (w : Q) (b : bool) : Q := if b then w else 0%Q.

(** The four terms of the score, before the cap. *)
Definition similarity_sum (r : Refinement.t) (p : Pattern.t) : Q :=
  (weight (3 # 10)
     (bool_decide (Refinement.skill r ∈ Pattern.affected_skills p))
   + weight (3 # 10)
       (bool_decide (Refinement.target_section r ≠ [])
        && contains (Refinement.target_section r) (Pattern.description p))
   + weight (2 # 10)
       (bool_decide (Pattern.category p
                     = Some (RefinementCategory_value
                               (Refinement.category r))))
   + (2 # 10) * overlap_ratio r p)%Q.

(* ===================================================================== *)
(** ** Specification: the matcher *)
(* ===================================================================== *)

(** A Pattern the matcher may return for a Refinement: not in a terminal
    status, and scoring at or above the similarity threshold. *)
Definition eligible (r : Refinement.t) (p : Pattern.t) : Prop :=
  is_terminal (Pattern.status p) = false
  ∧ (SIMILARITY_THRESHOLD <= _calculate_similarity r p)%Q.

#[global] Instance eligible_dec r p : Decision (eligible r p).
Proof.
  unfold eligible.
  destruct (is_terminal (Pattern.status p)).
  - right. by intros [? _].
  - destruct (Qlt_le_dec (_calculate_similarity r p) SIMILARITY_THRESHOLD)
      as [H|H].
    + right. intros [_ H']. by apply Qle_not_lt in H'.
    + by left.
Defined.

(* ===================================================================== *)
(** ** Times *)
(* ===================================================================== *)

Fixpoint has_shape (shape s : text) : bool :=
  match shape, s with
  | [], [] => true
  | a :: shape', c :: s' =>
      (if Ascii.eqb a "d" then isdigit c else Ascii.eqb a c)
      && has_shape shape' s'
  | _, _ => false
  end.

(** A time as [datetime.now().isoformat()] renders it:
    [YYYY-MM-DDTHH:MM:SS], with a fraction of six digits when the
    microseconds are not zero. *)
Definition is_time (s : text) : bool :=
  has_shape (txt "dddd-dd-ddTdd:dd:dd") s
  || has_shape (txt "dddd-dd-ddTdd:dd:dd.dddddd") s.

(** *** A reading of texts as datetimes, for the concrete runs

    The forms [YYYY-MM-DD] and [YYYY-MM-DD?HH[:MM[:SS[.fff[fff]]]]], the
    [?] any one character, with every field in range, as
    [datetime.fromisoformat] of Python 3.7 to 3.10 reads them; a text
    with a UTC offset, or of another form, is refused.  None of the
    concrete runs below reads a time from a document. *)

(** [n] digits at the start of [s]: their value, and the rest. *)
Definition read_digits (n : nat) (s : text) : option (Z * text) :=
  let d := take n s in
  if (length d =? n)%nat && forallb isdigit d
  then Some (int_of d, drop n s) else None.

Definition is_leap (y : Z) : bool :=
  ((y mod 4 =? 0) && (negb (y mod 100 =? 0) || (y mod 400 =? 0)))%Z.

Definition days_in_month (y m : Z) : Z :=
  if (m =? 2)%Z then (if is_leap y then 29 else 28)
  else if ((m =? 4) || (m =? 6) || (m =? 9) || (m =? 11))%Z then 30
  else 31.

(** [YYYY-MM-DD] at the start of [s], the fields in range: the rest. *)
Definition read_date (s : text) : option text :=
  match read_digits 4 s with
  | Some (y, "-"%char :: s1) =>
      match read_digits 2 s1 with
      | Some (m, "-"%char :: s2) =>
          match read_digits 2 s2 with
          | Some (d, rest) =>
              if ((1 <=? y) && (1 <=? m) && (m <=? 12) && (1 <=? d)
                  && (d <=? days_in_month y m))%Z
              then Some rest else None
          | None => None
          end
      | _ => None
      end
  | _ => None
  end.

(** Two digits below [bound] at the start of [s]. *)
Definition read_field (bound : Z) (s : text) : option (text * text) :=
  match read_digits 2 s with
  | Some (v, rest) =>
      if (v <? bound)%Z then Some (take 2 s, rest) else None
  | None => None
  end.

(** The fraction [.fff] or [.ffffff] that ends a text, as the six digits
    [isoformat] renders, or nothing when it is zero. *)
Definition read_fraction (s : text) : option text :=
  match s with
  | [] => Some []
  | "."%char :: f =>
      if forallb isdigit f
         && ((length f =? 3)%nat || (length f =? 6)%nat)
      then
        let f6 := f ++ repeat "0"%char (6 - length f) in
        if (int_of f6 =? 0)%Z then Some [] else Some ("."%char :: f6)
      else None
  | _ => None
  end.

(** [HH[:MM[:SS[.fff[fff]]]]] to the end of the text, as [isoformat]
    renders the time. *)
Definition read_time (s : text) : option text :=
  match read_field 24 s with
  | None => None
  | Some (hh, []) => Some (hh ++ txt ":00:00")
  | Some (hh, ":"%char :: s1) =>
      match read_field 60 s1 with
      | None => None
      | Some (mm, []) => Some (hh ++ txt ":" ++ mm ++ txt ":00")
      | Some (mm, ":"%char :: s2) =>
          match read_field 60 s2 with
          | None => None
          | Some (ss, s3) =>
              match read_fraction s3 with
              | Some f => Some (hh ++ txt ":" ++ mm ++ txt ":" ++ ss ++ f)
              | None => None
              end
          end
      | Some _ => None
      end
  | Some _ => None
  end.

Definition iso_fromisoformat (s : text) : option datetime :=
  match read_date s with
  | None => None
  | Some [] => Some (take 10 s ++ txt "T00:00:00")
  | Some (c :: _ as rest) =>
      match read_time (drop (char_width c) rest) with
      | Some time => Some (take 10 s ++ txt "T" ++ time)
      | None => None
      end
  end.

Definition iso_datetime : Datetime := {| fromisoformat := iso_fromisoformat |}.

Section Specification.
Context {library : Datetime}.

(* ===================================================================== *)
(** ** Sample data *)
(* ===================================================================== *)

Definition sample_now : datetime := txt "2024-01-02T03:04:05.000006".

(** The state a first [PatternAggregator()] leaves: the two templates. *)
Definition empty_store (now : datetime) : Files :=
  PatternAggregator now {| patterns_file := None; queue_file := None |}.

(** The Refinement of Scenario A, and a second report of the same gap from
    a named project. *)
Definition sample_r1 : Refinement.t :=
  Refinement.Build (txt "REF-2024-0102-001") (txt "s1") HOOK
    (txt "hooks/x") (txt "allow tests") (txt "blocks tests") (txt "").

Definition sample_r2 : Refinement.t :=
  Refinement.Build (txt "REF-2024-0102-002") (txt "s1") HOOK
    (txt "hooks/x") (txt "allow tests") (txt "blocks tests") (txt "proj").

(** The states after Scenario A and after Scenario B. *)
Definition sample_store1 : Files :=
  snd (process_new_refinement sample_now sample_r1 (empty_store sample_now)).

Definition sample_store2 : Files :=
  snd (process_new_refinement sample_now sample_r2 sample_store1).

Definition sample_pattern (id name description : string)
    (projects : list text) (count : Z) (status : PatternStatus)
  : Pattern.t :=
  Pattern.Build (txt id) (txt name) (txt description) [txt "s1"]
    [txt "REF-2024-0102-001"] projects count status
    (txt "2024-01-02T03:04:05") (txt "2024-01-02T03:04:05") None None.

(** Two patterns for the same skill and section; the second shares more
    words with the behaviour texts of [sample_r1] and scores higher. *)
Definition sample_two_patterns : list Pattern.t :=
  [ sample_pattern "PATTERN-001" "first" "hooks/x: other" [] 1 TRACKING;
    sample_pattern "PATTERN-002" "second" "hooks/x: allow tests" [] 1
      TRACKING ].

(** What stands before the entries of a queue document made from the
    template, and what stands after them. *)
Definition queue_head : text :=
  join [nl]
    [ txt "# Generalization Queue";
      txt "";
      txt "> Refinements ready for user-scope skill updates";
      txt "> Review and apply with: /apply-generalization [PATTERN-ID]";
      txt "";
      txt "## Ready for Review";
      txt "";
      txt "" ].

Definition queue_tail : text :=
  join [nl]
    [ txt "<!-- Patterns ready for generalization -->";
      txt "";
      txt "---";
      txt "";
      txt "## Pending More Data";
      txt "";
      txt "<!-- Patterns with count = 1, awaiting second occurrence -->";
      txt "" ].

(** A patterns document written by hand.  The heading of its entry
    carries one character of the class of the block expression, so
    [_load_patterns] reads the entry: PATTERN-001, seen once, for the
    skill and the section of [sample_r1]. *)
Definition handwritten_entry (pattern_id : string) : list text :=
  [ txt "### â " ++ txt pattern_id ++ txt ": hook-hooks-x-allow-tests";
    txt "- **Count:** 1";
    txt "";
    txt "**Affected Skills:**";
    txt "- s1";
    txt "";
    txt "**Description:**";
    txt "hooks/x: allow tests";
    txt "";
    txt "**Refinement IDs:** REF-2024-0102-001";
    txt "" ].

Definition handwritten_document (pattern_id : string) : text :=
  join [nl]
    ([ txt "# Aggregated Refinement Patterns";
       txt "";
       txt "## Tracking (count < threshold)";
       txt "" ]
     ++ handwritten_entry pattern_id).

(** The hand-written document beside the queue of the template. *)
Definition handwritten_store : Files :=
  {| patterns_file := Some (handwritten_document "PATTERN-001");
     queue_file := Some _get_generalization_queue_template |}.

(** The pattern [_load_patterns] reads from the hand-written document at
    the time [now]. *)
Definition handwritten_pattern (pattern_id : string) (now : datetime)
  : Pattern.t :=
  Pattern.Build (txt pattern_id) (txt "hook-hooks-x-allow-tests")
    (txt "hooks/x: allow tests") [txt "s1"] [txt "REF-2024-0102-001"] []
    1 TRACKING now now None None.

(** A pattern PATTERN-1000, and a store in which it is queued while the
    patterns document, written by hand, holds PATTERN-100. *)
Definition sample_thousand : Pattern.t :=
  Pattern.Build (txt "PATTERN-1000") (txt "tool-lint-keep-going")
    (txt "lint: keep going") [txt "s2"]
    [txt "REF-2024-0101-001"; txt "REF-2024-0101-002"] [] 2 READY
    (txt "2024-01-01T00:00:00") (txt "2024-01-01T00:00:00") None None.

Definition handwritten_store_hundred : Files :=
  {| patterns_file := Some (handwritten_document "PATTERN-100");
     queue_file :=
       Some (queue_head ++ _format_queue_entry sample_thousand
             ++ queue_tail) |}.


(* ===================================================================== *)
(** ** Specification: the queue and the store *)
(* ===================================================================== *)

(** One entry heading [### PATTERN-n: ] at the start of [s]: the id. *)
Definition queue_entry_at (s : text) : option (text * text) :=
  match drop_prefix (txt "### ") s with
  | None => None
  | Some r =>
      match id_at r with
      | None => None
      | Some (digits, rest) =>
          if startswith (txt ": ") rest
          then Some (txt "PATTERN-" ++ digits, rest) else None
      end
  end.

(** The ids that have an entry in a queue document. *)
Definition queue_ids (fs : Files) : list text :=
  re_findall queue_entry_at (default [] (queue_file fs)).

(** The ids of the stored patterns in READY status. *)
Definition ready_ids (now : datetime) (fs : Files) : list text :=
  map Pattern.id (get_ready_patterns now fs).

(* ===================================================================== *)
(** ** Texts the patterns document keeps apart *)
(* ===================================================================== *)

(** A pattern id: [PATTERN-] and digits. *)
Definition is_pattern_id (s : text) : bool :=
  match drop_prefix (txt "PATTERN-") s with
  | Some digits => forallb isdigit digits && negb (bool_decide (digits = []))
  | None => false
  end.

(* ===================================================================== *)
(** ** The text of the patterns document, piece by piece *)
(* ===================================================================== *)

(** [clash k s]: [k] and [s] differ at a position both have. *)
Fixpoint clash (k s : text) : bool :=
  match k, s with
  | a :: k', b :: s' => if Ascii.eqb a b then clash k' s' else true
  | _, _ => false
  end.

(** [never k a]: no occurrence of [k] begins inside [a], whatever text
    follows [a]. *)
Fixpoint never (k a : text) : bool :=
  match a with
  | [] => true
  | _ :: a' => clash k a && never k a'
  end.

(** [without c s]: the character [c] does not occur in [s]. *)
Definition without (c : ascii) (s : text) : bool :=
  forallb (fun x => negb (Ascii.eqb c x)) s.

(** An expression that matches only where the literal [k] stands. *)
Definition guarded {A} (k : text) (m : text -> option A) : Prop :=
  ∀ s, drop_prefix k s = None → m s = None.

Definition skills_text (skills : list text) : text :=
  concat (map (fun skill => txt "- " ++ skill ++ [nl]) skills).

Definition list_line (key : text) (l : list text) : text :=
  match l with
  | [] => []
  | _ => key ++ join (txt ", ") l ++ [nl]
  end.

(** The heading line of an entry, and the lines under it. *)
Definition head_text (p : Pattern.t) : text :=
  txt "### " ++ icon (Pattern.status p) ++ txt " " ++ Pattern.id p
  ++ txt ": " ++ Pattern.name p ++ [nl].

(** The bold keys of an entry, as the expressions of [_load_patterns]
    spell them. *)
Definition key_first : text := txt "**First seen:** ".
Definition key_last : text := txt "**Last seen:** ".
Definition key_count : text := txt "**Count:** ".
Definition key_skills : text := txt "**Affected Skills:**" ++ [nl].
Definition key_description : text := txt "**Description:**" ++ [nl].
Definition key_projects : text := txt "**Projects:** ".
Definition key_refs : text := txt "**Refinement IDs:** ".

Definition body_text (p : Pattern.t) : text :=
  txt "- " ++ key_first ++ Pattern.first_seen p
  ++ (nl :: txt "- ") ++ key_last ++ Pattern.last_seen p
  ++ (nl :: txt "- ") ++ key_count ++ str_int (Pattern.count p)
  ++ (nl :: txt "- **Status:** ") ++ PatternStatus_value (Pattern.status p)
  ++ [nl; nl]
  ++ key_skills
  ++ skills_text (Pattern.affected_skills p)
  ++ [nl]
  ++ key_description
  ++ Pattern.description p
  ++ [nl; nl]
  ++ list_line key_projects (Pattern.projects p)
  ++ list_line key_refs (Pattern.refinement_ids p)
  ++ (nl :: txt "---" ++ [nl]).

(** A piece of the document: the entry of a pattern, or text between
    entries. *)
Inductive chunk : Type :=
  | Junk (t : text)
  | Entry (p : Pattern.t).

Definition chunk_text (c : chunk) : text :=
  match c with
  | Junk t => t
  | Entry p => head_text p ++ body_text p
  end.

Definition chunks_text (cs : list chunk) : text :=
  concat (map chunk_text cs).

(** [without c s], for every text of a list. *)
Definition all_without (c : ascii) (l : list text) : bool :=
  forallb (without c) l.

(** A Pattern none of whose texts holds the character [#]. *)
Definition hash_free (p : Pattern.t) : bool :=
  without "#" (Pattern.id p)
  && without "#" (Pattern.name p)
  && without "#" (Pattern.description p)
  && all_without "#" (Pattern.affected_skills p)
  && all_without "#" (Pattern.refinement_ids p)
  && all_without "#" (Pattern.projects p)
  && without "#" (Pattern.first_seen p)
  && without "#" (Pattern.last_seen p).

(** A Refinement none of whose texts that reach the patterns document
    holds the character [#]. *)
Definition hash_free_refinement (r : Refinement.t) : bool :=
  without "#" (Refinement.id r)
  && without "#" (Refinement.skill r)
  && without "#" (Refinement.target_section r)
  && without "#" (Refinement.expected_behavior r)
  && without "#" (Refinement.project r).

(** The text between entries holds no [#] but in its own headings; the
    texts of an entry hold none. *)
Definition chunk_ok (c : chunk) : bool :=
  match c with
  | Junk t => never (txt "### ") t
  | Entry p => hash_free p
  end.

(** The chunks of one status section, and of the whole document. *)
Definition section_chunks (none : text) (l : list Pattern.t) : list chunk :=
  match l with
  | [] => [ Junk ([nl] ++ none ++ [nl]) ]
  | _ => concat (map (fun p => [ Junk [nl]; Entry p ]) l)
  end.

Definition lines_text (l : list text) : text :=
  concat (map (fun x => nl :: x) l).

Definition document_chunks (now : datetime) (patterns : list Pattern.t)
  : list chunk :=
  [ Junk (txt "# Aggregated Refinement Patterns"
          ++ lines_text
               [ txt "";
                 txt "> Auto-updated when pattern count >= "
                   ++ str_int GENERALIZATION_THRESHOLD;
                 txt "> Last updated: " ++ now;
                 txt "";
                 txt "## Ready for Generalization";
                 txt "" ]) ]
  ++ section_chunks (txt "*No patterns ready for generalization*")
       (with_status READY patterns)
  ++ [ Junk (lines_text
               [ txt "---"; txt ""; txt "## Tracking (count < threshold)";
                 txt "" ]) ]
  ++ section_chunks (txt "*No patterns currently tracking*")
       (with_status TRACKING patterns)
  ++ [ Junk (lines_text
               [ txt "---"; txt ""; txt "## Generalized (Applied)";
                 txt "" ]) ]
  ++ section_chunks (txt "*No patterns generalized yet*")
       (with_status GENERALIZED patterns)
  ++ match with_status DISMISSED patterns with
     | [] => []
     | dismissed =>
         [ Junk (lines_text
                   [ txt "---"; txt ""; txt "## Dismissed"; txt "" ]) ]
         ++ concat (map (fun p => [ Junk [nl]; Entry p ]) dismissed)
     end.

(* ===================================================================== *)
(** ** The lifecycle as a transition system *)
(* ===================================================================== *)

(** A call of a lifecycle operation, with the time at which it runs. *)
Inductive op : Type :=
  | Process (now : datetime) (r : Refinement.t)
  | CheckAll (now : datetime)
  | MarkGeneralized (now : datetime) (pattern_id : text)
  | Dismiss (now : datetime) (pattern_id reason : text).

Definition run_op (o : op) (fs : Files) : Files :=
  match o with
  | Process now r => (process_new_refinement now r fs).2
  | CheckAll now => (check_all_patterns now fs).2
  | MarkGeneralized now pattern_id => (mark_generalized now pattern_id fs).2
  | Dismiss now pattern_id reason =>
      (dismiss_pattern now pattern_id reason fs).2
  end.

(** The clock reads a time, and the texts of a Refinement handed in hold
    no [#]. *)
Definition wf_op (o : op) : bool :=
  match o with
  | Process now r => is_time now && hash_free_refinement r
  | CheckAll now | MarkGeneralized now _ | Dismiss now _ _ => is_time now
  end.

(** The states the operations reach from the empty store. *)
Inductive reachable : Files -> Prop :=
  | reachable_empty now :
      is_time now = true -> reachable (empty_store now)
  | reachable_step o fs :
      reachable fs -> wf_op o = true -> reachable (run_op o fs).



(** The list [check_all_patterns] saves. *)
Definition rechecked_patterns (now : datetime) (fs : Files)
  : list Pattern.t :=
  (check_loop now (_load_patterns now fs) fs).1.1.

(** A state of which [_load_patterns] reads no pattern, whatever the
    time. *)
Definition reads_nothing (fs : Files) : Prop :=
  ∀ now, _load_patterns now fs = [].


(** The patterns the loop of [check_all_patterns] promotes. *)
Definition promoted (p : Pattern.t) : Prop :=
  Pattern.status p = TRACKING ∧ (GENERALIZATION_THRESHOLD <= Pattern.count p)%Z.

#[global] Instance promoted_dec p : Decision (promoted p).
Proof. unfold promoted. apply _. Defined.

(** What the matcher comes down to for a pattern without the [category]
    attribute: not terminal, the skill of the Refinement among the
    affected skills, the target section given and occurring in the
    description. *)
Definition same_skill_and_section (r : Refinement.t) (p : Pattern.t)
  : bool :=
  negb (is_terminal (Pattern.status p))
  && bool_decide (Refinement.skill r ∈ Pattern.affected_skills p)
  && negb (bool_decide (Refinement.target_section r = []))
  && contains (Refinement.target_section r) (Pattern.description p).

(** No two hyphens in a row. *)
Fixpoint no_double_hyphen (s : text) : bool :=
  match s with
  | c :: s' =>
      match s' with
      | d :: _ => negb (Ascii.eqb c "-" && Ascii.eqb d "-")
                  && no_double_hyphen s'
      | [] => true
      end
  | [] => true
  end.

End Specification.

(* ===================================================================== *)
(** ** Tactics *)
(* ===================================================================== *)

(** Both sides of an equation of texts as right-nested concatenations. *)
Ltac flatten_text :=
  repeat (rewrite <-?app_assoc;
          cbn [app lines_text map concat txt list_ascii_of_string]).

(** A property of every character, by cases. *)
Ltac by_ascii_cases :=
  let x := fresh "x" in
  intros x; destruct x as [[] [] [] [] [] [] [] []]; vm_compute; done.

(* ===================================================================== *)
(** * Properties *)
(* ===================================================================== *)

Section Scoring.
Context {library : Datetime}.

(** ** Texts *)

Section text_facts.
Implicit Types (p s a b : text) (c : ascii).

Lemma drop_prefix_app p r : drop_prefix p (p ++ r) = Some r.
Proof.
  induction p as [|c p IH]; simpl; [done|].
  by rewrite Ascii.eqb_refl.
Qed.

Lemma drop_prefix_Some p s r : drop_prefix p s = Some r → s = p ++ r.
Proof.
  revert s; induction p as [|c p IH]; intros s; simpl.
  - by intros [= ->].
  - destruct s as [|d s]; [done|].
    destruct (Ascii.eqb_spec c d) as [->|]; [|done].
    intros H. by rewrite (IH _ H).
Qed.

Lemma drop_prefix_None p s :
  drop_prefix p s = None → ∀ r, s ≠ p ++ r.
Proof.
  intros H r ->. by rewrite drop_prefix_app in H.
Qed.

Lemma find_sub_Some p s a b : find_sub p s = Some (a, b) → s = a ++ p ++ b.
Proof.
  revert a; induction s as [|c s IH]; intros a; simpl.
  - destruct (drop_prefix p []) eqn:E; [|done].
    intros [= <- <-]. by apply drop_prefix_Some in E.
  - destruct (drop_prefix p (c :: s)) eqn:E.
    + intros [= <- <-]. by apply drop_prefix_Some in E.
    + destruct (find_sub p s) as [[a' b']|] eqn:F; [|done].
      intros [= <- <-]. by rewrite (IH _ eq_refl).
Qed.

Lemma find_sub_None p s a b : find_sub p s = None → s ≠ a ++ p ++ b.
Proof.
  revert a; induction s as [|c s IH]; intros a; simpl.
  - destruct (drop_prefix p []) eqn:E; [done|].
    intros _ H. destruct a; [|done]. simpl in H.
    by apply (drop_prefix_None _ _ E b).
  - destruct (drop_prefix p (c :: s)) eqn:E; [done|].
    destruct (find_sub p s) as [[a' b']|] eqn:F; [done|].
    intros _ H. destruct a as [|d a]; simpl in H.
    + by apply (drop_prefix_None _ _ E b).
    + injection H as -> H. by apply (IH a).
Qed.

(** [contains] decides the substring relation. *)
Lemma contains_spec p s : contains p s = true ↔ ∃ a b, s = a ++ p ++ b.
Proof.
  unfold contains. destruct (find_sub p s) as [[a b]|] eqn:E.
  - split; [|done]. intros _. exists a, b. by apply find_sub_Some.
  - split; [done|]. intros (a & b & H). by apply find_sub_None in H.
Qed.

Lemma dedup_text_elem (l : list text) x : x ∈ dedup_text l ↔ x ∈ l.
Proof.
  induction l as [|y l IH]; simpl; [done|].
  case_bool_decide as Hy.
  - rewrite IH, elem_of_cons. split; [by right|]. by intros [->|].
  - by rewrite !elem_of_cons, IH.
Qed.

Lemma dedup_text_NoDup (l : list text) : NoDup (dedup_text l).
Proof.
  induction l as [|y l IH]; simpl; [constructor|].
  case_bool_decide; [done|].
  constructor; [|done]. by rewrite dedup_text_elem.
Qed.

Lemma dedup_text_size (l : list text) :
  length (dedup_text l) = size (list_to_set (C := gset text) l).
Proof.
  rewrite <-(size_list_to_set (C := gset text) (dedup_text l))
    by apply dedup_text_NoDup.
  f_equal. apply set_eq. intros x.
  by rewrite !elem_of_list_to_set, dedup_text_elem.
Qed.
End text_facts.

(** ** The similarity score *)

Lemma ref_words_size r :
  length (ref_words r)
  = size (word_set (Refinement.expected_behavior r)
          ∪ word_set (Refinement.actual_behavior r)).
Proof.
  unfold ref_words, word_set. rewrite dedup_text_size.
  by rewrite list_to_set_app_L.
Qed.

Lemma pattern_words_size p :
  length (pattern_words p) = size (word_set (Pattern.description p)).
Proof. unfold pattern_words, word_set. apply dedup_text_size. Qed.

Lemma common_words_size r p :
  length (common_words r p)
  = size ((word_set (Refinement.expected_behavior r)
           ∪ word_set (Refinement.actual_behavior r))
          ∩ word_set (Pattern.description p)).
Proof.
  unfold common_words.
  rewrite <-(size_list_to_set (C := gset text)).
  - f_equal. apply set_eq. intros x.
    rewrite elem_of_list_to_set, list_elem_of_filter, elem_of_intersection.
    unfold pattern_words, ref_words, word_set.
    rewrite !dedup_text_elem, elem_of_union, !elem_of_list_to_set.
    rewrite elem_of_app. tauto.
  - apply NoDup_filter, dedup_text_NoDup.
Qed.

Lemma overlap_ratio_code r p :
  (inject_Z (Z.of_nat (length (common_words r p)))
   / inject_Z (Z.of_nat (Nat.max (Nat.max (length (ref_words r))
                                     (length (pattern_words p))) 1)))%Q
  = overlap_ratio r p.
Proof.
  unfold overlap_ratio.
  by rewrite common_words_size, ref_words_size, pattern_words_size.
Qed.

Lemma overlap_ratio_zero r p :
  common_words r p = [] → (overlap_ratio r p == 0)%Q.
Proof.
  intros H. rewrite <-overlap_ratio_code, H. simpl.
  unfold Qdiv. by rewrite Qmult_0_l.
Qed.

(** C5.  The similarity score of a Refinement and a Pattern is the sum,
    capped at 1, of 0.3 when the skill of the Refinement is among the
    affected skills, 0.3 when the target section is not empty and occurs
    in the description, 0.2 when the category of the Refinement is the
    category recorded on the Pattern, and 0.2 times the token-overlap
    ratio of the behaviour texts and the description. *)
Theorem similarity_is_capped_sum (r : Refinement.t) (p : Pattern.t) :
  (_calculate_similarity r p == Qmin (similarity_sum r p) 1)%Q.
Proof.
  unfold _calculate_similarity, similarity_sum, category_matches.
  rewrite overlap_ratio_code.
  apply Q.min_compat; [|reflexivity].
  assert (Hcat :
    match Pattern.category p with
    | Some c =>
        bool_decide (RefinementCategory_value (Refinement.category r) = c)
    | None => false
    end
    = bool_decide (Pattern.category p
                   = Some (RefinementCategory_value (Refinement.category r)))).
  { destruct (Pattern.category p) as [c|]; [|done].
    apply bool_decide_ext. split; [by intros ->|by intros [= ->]]. }
  rewrite Hcat. clear Hcat.
  assert (Hsec :
    negb (bool_decide (Refinement.target_section r = []))
    = bool_decide (Refinement.target_section r ≠ [])).
  { by rewrite bool_decide_not. }
  rewrite Hsec. clear Hsec.
  destruct (bool_decide (common_words r p = [])) eqn:Hcw; simpl.
  - apply bool_decide_eq_true in Hcw.
    rewrite (overlap_ratio_zero _ _ Hcw).
    unfold weight.
    repeat match goal with |- context [if ?b then _ else _] =>
      destruct b end; simpl; ring.
  - unfold weight.
    repeat match goal with |- context [if ?b then _ else _] =>
      destruct b end; simpl; ring.
Qed.

(** ** The matcher *)

Lemma eligible_case r p :
  eligible r p
  ↔ is_terminal (Pattern.status p) = false
    ∧ Qle_bool SIMILARITY_THRESHOLD (_calculate_similarity r p) = true.
Proof. unfold eligible. by rewrite Qle_bool_iff. Qed.

Lemma find_matching_from_list_find r k ps :
  _find_matching_pattern_from r k ps
  = prod_map (λ i, k + i)%nat id <$> list_find (eligible r) ps.
Proof.
  revert k; induction ps as [|p ps IH]; intros k; simpl; [done|].
  rewrite IH. clear IH.
  destruct (decide (eligible r p)) as [He|He]; rewrite eligible_case in He.
  - destruct He as [-> ->]. simpl. rewrite Nat.add_0_r.
    by destruct (contains _ _).
  - assert (prod_map (λ i, S k + i)%nat id <$> list_find (eligible r) ps
            = prod_map (λ i, k + i)%nat id
                <$> (prod_map S id <$> list_find (eligible r) ps)) as ->.
    { destruct (list_find _ ps) as [[i q]|]; simpl; [|done].
      do 2 f_equal. lia. }
    destruct (is_terminal (Pattern.status p)); [done|].
    destruct (Qle_bool _ _); [by destruct He|].
    by rewrite andb_false_r.
Qed.

Lemma find_matching_list_find r ps :
  _find_matching_pattern r ps = list_find (eligible r) ps.
Proof.
  unfold _find_matching_pattern. rewrite find_matching_from_list_find.
  by destruct (list_find _ ps) as [[i q]|].
Qed.

(** C6.  The matcher returns the first Pattern in store order that is not
    GENERALIZED or DISMISSED and scores at or above 0.6; it returns no
    match exactly when no such Pattern exists; and the Pattern returned
    need not be the highest-scoring one. *)
Theorem matcher_returns_first_eligible :
  (∀ r ps,
     (∀ i p, _find_matching_pattern r ps = Some (i, p)
             ↔ ps !! i = Some p ∧ eligible r p
               ∧ ∀ j q, ps !! j = Some q → (j < i)%nat → ¬ eligible r q)
     ∧ (_find_matching_pattern r ps = None
        ↔ ∀ q, q ∈ ps → ¬ eligible r q))
  ∧ (∃ r ps i p j q,
       _find_matching_pattern r ps = Some (i, p)
       ∧ ps !! j = Some q ∧ eligible r q
       ∧ (_calculate_similarity r p < _calculate_similarity r q)%Q).
Proof.
  split.
  - intros r ps. split.
    + intros i p. rewrite find_matching_list_find. apply list_find_Some.
    + rewrite find_matching_list_find, list_find_None, Forall_forall.
      done.
  - exists sample_r1, sample_two_patterns, 0%nat.
    eexists _, 1%nat, _.
    split; [by vm_compute|]. split; [done|].
    split; [split; [done|by vm_compute]|by vm_compute].
Qed.

(** ** Operations on an unknown id *)

(** C8.  For a pattern id that no stored Pattern carries,
    [mark_generalized] and [dismiss_pattern] return [False] and leave both
    documents as they are. *)
Theorem unknown_id_is_reported (now : datetime) (pattern_id reason : text)
    (fs : Files) :
  pattern_id ∉ map Pattern.id (_load_patterns now fs) →
  mark_generalized now pattern_id fs = (false, fs)
  ∧ dismiss_pattern now pattern_id reason fs = (false, fs).
Proof.
  intros Hid.
  assert (list_find (λ p, Pattern.id p = pattern_id) (_load_patterns now fs)
          = None) as Hnone.
  { apply list_find_None, Forall_forall. intros p Hp <-.
    apply Hid, list_elem_of_fmap. by exists p. }
  unfold mark_generalized, dismiss_pattern. by rewrite Hnone.
Qed.

(** ** Updating a matched pattern *)

Lemma check_threshold_fields now p fs :
  let p' := fst (check_threshold now p fs) in
  Pattern.count p' = Pattern.count p
  ∧ Pattern.refinement_ids p' = Pattern.refinement_ids p
  ∧ Pattern.id p' = Pattern.id p.
Proof.
  unfold check_threshold.
  destruct (_ <=? _)%Z; [|done].
  by destruct (negb _).
Qed.

(** C10.  When [process_new_refinement] matches a Refinement to a stored
    Pattern, the count of the Pattern grows by exactly 1 whatever the
    Refinement, and the id of the Refinement is appended to
    [refinement_ids] only when the list does not hold it yet: a Refinement
    whose id is already recorded raises the count and leaves the list as
    it is.  The list saved holds the result at the position of the
    match. *)
Theorem matched_update_counts_every_call (now : datetime)
    (r : Refinement.t) (fs : Files) (i : nat) (m : Pattern.t) :
  _find_matching_pattern r (_load_patterns now fs) = Some (i, m) →
  let p := fst (process_new_refinement now r fs) in
  Pattern.count p = Pattern.count m + 1
  ∧ (Refinement.id r ∈ Pattern.refinement_ids m →
     Pattern.refinement_ids p = Pattern.refinement_ids m)
  ∧ (Refinement.id r ∉ Pattern.refinement_ids m →
     Pattern.refinement_ids p = Pattern.refinement_ids m ++ [Refinement.id r])
  ∧ processed_patterns now r fs !! i = Some p.
Proof.
  intros Hfind. simpl.
  unfold process_new_refinement, processed_patterns, match_or_create.
  rewrite Hfind.
  pose proof (check_threshold_fields now (_update_pattern now m r) fs)
    as (Hc & Hr & _).
  destruct (check_threshold now (_update_pattern now m r) fs) as [p fs']
    eqn:Hct.
  simpl in *. rewrite Hc, Hr. unfold add_new.
  split; [done|]. split; [|split].
  - intros Hin. by rewrite bool_decide_eq_true_2.
  - intros Hin. by rewrite bool_decide_eq_false_2.
  - apply list_lookup_insert_eq.
    rewrite find_matching_list_find in Hfind.
    apply list_find_Some in Hfind as (Hi & _).
    by apply lookup_lt_Some in Hi.
Qed.

End Scoring.

(** ** Where an expression cannot match *)

Section never_facts.
Implicit Types (k s a b : text) (c : ascii).

Lemma clash_app k a b : clash k a = true → clash k (a ++ b) = true.
Proof.
  revert a; induction k as [|x k IH]; intros [|y a]; simpl; try done.
  destruct (Ascii.eqb x y); [apply IH|done].
Qed.

Lemma clash_extend k k' s : clash k s = true → clash (k ++ k') s = true.
Proof.
  revert s; induction k as [|x k IH]; intros [|y s]; simpl; try done.
  destruct (Ascii.eqb x y); [apply IH|done].
Qed.

Lemma clash_drop_prefix k s : clash k s = true → drop_prefix k s = None.
Proof.
  revert s; induction k as [|x k IH]; intros [|y s]; simpl; try done.
  destruct (Ascii.eqb x y); [apply IH|done].
Qed.

Lemma never_app k a b :
  never k a = true → never k b = true → never k (a ++ b) = true.
Proof.
  intros Ha Hb. induction a as [|x a IH]; simpl in *; [done|].
  apply andb_true_iff in Ha as [Hc Ha].
  apply andb_true_iff. split; [|by apply IH].
  by apply (clash_app k (x :: a) b).
Qed.

Lemma never_extend k k' a : never k a = true → never (k ++ k') a = true.
Proof.
  induction a as [|x a IH]; simpl; [done|].
  intros [Hc Ha]%andb_true_iff.
  apply andb_true_iff. split; [by apply clash_extend|by apply IH].
Qed.

Lemma never_without c k a : without c a = true → never (c :: k) a = true.
Proof.
  unfold without. induction a as [|x a IH]; simpl; [done|].
  intros [Hx Ha]%andb_true_iff.
  destruct (Ascii.eqb c x); [done|]. by apply IH.
Qed.

Lemma never_cons_inv k x a :
  never k (x :: a) = true → drop_prefix k (x :: a) = None ∧ never k a = true.
Proof.
  simpl. intros [Hc Ha]%andb_true_iff. split; [|done].
  by apply (clash_drop_prefix k (x :: a)).
Qed.

Lemma never_drop_prefix k x a b :
  never k (x :: a) = true → drop_prefix k ((x :: a) ++ b) = None.
Proof.
  simpl. intros [Hc _]%andb_true_iff.
  apply clash_drop_prefix. by apply (clash_app k (x :: a) b).
Qed.

Lemma guarded_nil {A} k (m : text → option A) :
  guarded k m → k ≠ [] → m [] = None.
Proof. intros Hg Hk. apply Hg. by destruct k. Qed.

Lemma re_search_never {A} k (m : text → option A) a b :
  guarded k m → never k a = true → re_search m (a ++ b) = re_search m b.
Proof.
  intros Hg. induction a as [|x a IH]; [done|].
  intros Hn. pose proof (never_drop_prefix k x a b Hn) as Hd.
  apply never_cons_inv in Hn as [_ Hn].
  change ((x :: a) ++ b) with (x :: (a ++ b)) in *.
  simpl. rewrite (Hg _ Hd). by apply IH.
Qed.

Lemma re_search_end {A} k (m : text → option A) a :
  guarded k m → k ≠ [] → never k a = true → re_search m a = None.
Proof.
  intros Hg Hk Hn. rewrite <-(app_nil_r a), (re_search_never k) by done.
  simpl. by rewrite (guarded_nil k m).
Qed.

Lemma re_findall_skip {A} (m : text → option (A * text)) a b :
  re_findall_from m (length a) (a ++ b) = re_findall_from m 0 b.
Proof. induction a as [|x a IH]; simpl; [by destruct b|done]. Qed.

Lemma re_findall_never {A} k (m : text → option (A * text)) a b :
  guarded k m → never k a = true →
  re_findall_from m 0 (a ++ b) = re_findall_from m 0 b.
Proof.
  intros Hg. induction a as [|x a IH]; [done|].
  intros Hn. pose proof (never_drop_prefix k x a b Hn) as Hd.
  apply never_cons_inv in Hn as [_ Hn].
  change ((x :: a) ++ b) with (x :: (a ++ b)) in *.
  simpl. rewrite (Hg _ Hd). by apply IH.
Qed.

Lemma re_findall_hit {A} (m : text → option (A * text)) x a b v :
  m (x :: a ++ b) = Some (v, b) →
  re_findall_from m 0 (x :: a ++ b) = v :: re_findall_from m 0 b.
Proof.
  intros H. simpl. rewrite H. f_equal.
  rewrite length_app.
  replace (length a + length b - length b)%nat with (length a) by lia.
  apply re_findall_skip.
Qed.

Lemma span_app f a b :
  forallb f a = true →
  match b with [] => True | c :: _ => f c = false end →
  span f (a ++ b) = (a, b).
Proof.
  intros Ha Hb. induction a as [|x a IH].
  - destruct b as [|c b]; simpl; [done|]. by rewrite Hb.
  - simpl in Ha. apply andb_true_iff in Ha as [Hx Ha].
    simpl. by rewrite Hx, IH.
Qed.

Lemma find_sub_first c a b :
  without c a = true → find_sub [c] (a ++ c :: b) = Some (a, b).
Proof.
  unfold without. induction a as [|x a IH]; simpl.
  - by rewrite Ascii.eqb_refl.
  - intros [Hx Ha]%andb_true_iff.
    apply negb_true_iff in Hx. rewrite Hx.
    by rewrite (IH Ha).
Qed.

Lemma header_ahead_guarded s :
  drop_prefix (txt "### ") s = None → header_ahead s = false.
Proof. unfold header_ahead. by intros ->. Qed.

Lemma until_header_never a b :
  never (txt "### ") a = true →
  until_header (a ++ b) = (a ++ (until_header b).1, (until_header b).2).
Proof.
  induction a as [|x a IH]; [simpl; by destruct (until_header b)|].
  intros Hn. pose proof (never_drop_prefix _ x a b Hn) as Hd.
  apply never_cons_inv in Hn as [_ Hn].
  change ((x :: a) ++ b) with (x :: (a ++ b)) in *.
  cbn [until_header].
  rewrite (header_ahead_guarded _ Hd), (IH Hn). done.
Qed.

End never_facts.

Section Document.
Context {library : Datetime}.

(** ** The document as a list of chunks *)

Lemma join_lines x l : join [nl] (x :: l) = x ++ lines_text l.
Proof.
  revert x; induction l as [|y l IH]; intros x.
  - simpl. by rewrite app_nil_r.
  - change (join [nl] (x :: y :: l)) with (x ++ [nl] ++ join [nl] (y :: l)).
    by rewrite IH.
Qed.

Lemma lines_text_app a b : lines_text (a ++ b) = lines_text a ++ lines_text b.
Proof. unfold lines_text. by rewrite map_app, concat_app. Qed.

Lemma lines_text_skills l :
  lines_text (map (λ skill, txt "- " ++ skill) l) ++ [nl]
  = [nl] ++ skills_text l.
Proof.
  induction l as [|x l IH]; [done|].
  change (lines_text (map (λ skill, txt "- " ++ skill) (x :: l)))
    with (nl :: (txt "- " ++ x)
          ++ lines_text (map (λ skill, txt "- " ++ skill) l)).
  change (skills_text (x :: l)) with ((txt "- " ++ x ++ [nl]) ++ skills_text l).
  simpl. do 3 f_equal. rewrite <-!app_assoc. f_equal.
  apply IH.
Qed.

Lemma lines_text_list_line key l :
  lines_text (if bool_decide (l = []) then [] else [key ++ join (txt ", ") l])
  ++ [nl]
  = [nl] ++ list_line key l.
Proof.
  destruct l as [|x l]; [done|].
  rewrite bool_decide_eq_false_2 by done.
  unfold lines_text, list_line. simpl. rewrite app_nil_r.
  by rewrite <-!app_assoc.
Qed.

Lemma shift_nl (t u : text) :
  t ++ [nl] = [nl] ++ u → ∀ x, t ++ nl :: x = nl :: u ++ x.
Proof.
  intros H x. change (nl :: x) with ([nl] ++ x).
  by rewrite app_assoc, H.
Qed.

Lemma lines_text_format p :
  lines_text (_format_pattern p) = [nl] ++ head_text p ++ body_text p.
Proof.
  unfold _format_pattern. rewrite !lines_text_app.
  unfold head_text, body_text.
  pose proof (shift_nl _ _ (lines_text_skills (Pattern.affected_skills p)))
    as Hs.
  pose proof (shift_nl _ _ (lines_text_list_line (txt "**Projects:** ")
                              (Pattern.projects p))) as Hp.
  pose proof (shift_nl _ _ (lines_text_list_line (txt "**Refinement IDs:** ")
                              (Pattern.refinement_ids p))) as Hr.
  revert Hs Hp Hr.
  generalize (lines_text (map (λ skill, txt "- " ++ skill)
                            (Pattern.affected_skills p))).
  generalize (lines_text
                (if bool_decide (Pattern.projects p = []) then []
                 else [txt "**Projects:** "
                       ++ join (txt ", ") (Pattern.projects p)])).
  generalize (lines_text
                (if bool_decide (Pattern.refinement_ids p = []) then []
                 else [txt "**Refinement IDs:** "
                       ++ join (txt ", ") (Pattern.refinement_ids p)])).
  intros tr tp ts Hs Hp Hr.
  flatten_text.
  rewrite Hs, Hr, Hp.
  reflexivity.
Qed.

Lemma chunks_text_app a b : chunks_text (a ++ b) = chunks_text a ++ chunks_text b.
Proof. unfold chunks_text. by rewrite map_app, concat_app. Qed.

Lemma lines_text_entries l :
  lines_text (concat (map _format_pattern l))
  = chunks_text (concat (map (λ p, [ Junk [nl]; Entry p ]) l)).
Proof.
  induction l as [|p l IH]; [done|].
  cbn [map concat]. rewrite lines_text_app, chunks_text_app, IH.
  f_equal. rewrite lines_text_format.
  unfold chunks_text. simpl. by rewrite app_nil_r.
Qed.

Lemma lines_text_section none l :
  lines_text (section_lines none l) = chunks_text (section_chunks none l).
Proof.
  destruct l as [|p l].
  - unfold chunks_text, lines_text. simpl. by rewrite !app_nil_r.
  - apply (lines_text_entries (p :: l)).
Qed.

Lemma chunks_text_junk t : chunks_text [Junk t] = t.
Proof. unfold chunks_text. simpl. by rewrite app_nil_r. Qed.

Lemma save_chunks now patterns :
  _save_patterns now patterns = chunks_text (document_chunks now patterns).
Proof.
  unfold _save_patterns, document_lines, document_chunks.
  match goal with
  | |- join _ ((?x :: ?l) ++ ?m) = _ =>
      change ((x :: l) ++ m) with (x :: (l ++ m))
  end.
  rewrite join_lines.
  destruct (with_status DISMISSED patterns) as [|d ds].
  - rewrite !lines_text_app, !chunks_text_app, !lines_text_section.
    rewrite !chunks_text_junk, ?app_nil_r, <-?app_assoc. reflexivity.
  - rewrite !lines_text_app, !chunks_text_app, !lines_text_section.
    rewrite (lines_text_entries (d :: ds)).
    rewrite !chunks_text_junk, ?app_nil_r, <-?app_assoc. reflexivity.
Qed.

(** ** Character classes *)

Lemma forallb_sub (f g : ascii → bool) s :
  (∀ x, f x = true → g x = true) → forallb f s = true → forallb g s = true.
Proof.
  intros H. induction s as [|x s IH]; simpl; [done|].
  intros [Hx Hs]%andb_true_iff. by rewrite (H _ Hx), IH.
Qed.

Lemma without_app c a b :
  without c (a ++ b) = without c a && without c b.
Proof. unfold without. apply forallb_app. Qed.

Lemma digit_hash : ∀ x, isdigit x = true → negb (Ascii.eqb "#" x) = true.
Proof. by_ascii_cases. Qed.

(** ** Numerals *)

Lemma uint_text_digits d : forallb isdigit (uint_text d) = true.
Proof. induction d; simpl; by rewrite ?IHd. Qed.

Lemma text_uint_text d : text_uint (uint_text d) = d.
Proof. induction d; simpl; by rewrite ?IHd. Qed.

Lemma str_int_digits n :
  (0 ≤ n)%Z → forallb isdigit (str_int n) = true ∧ str_int n ≠ [].
Proof.
  intros Hn. unfold str_int. destruct n as [|p|p]; [done| |lia].
  simpl. split; [apply uint_text_digits|].
  pose proof (DecimalPos.Unsigned.to_uint_nonnil p) as H.
  by destruct (Pos.to_uint p).
Qed.

Lemma int_of_str_int n : (0 ≤ n)%Z → int_of (str_int n) = n.
Proof.
  intros Hn. unfold int_of, str_int.
  pose proof (DecimalZ.of_to n) as H.
  destruct n as [|p|p]; [done| |lia].
  simpl in *. by rewrite text_uint_text.
Qed.

(** ** Ids *)

Lemma is_pattern_id_inv s :
  is_pattern_id s = true →
  ∃ digits, s = txt "PATTERN-" ++ digits
            ∧ forallb isdigit digits = true ∧ digits ≠ [].
Proof.
  unfold is_pattern_id.
  destruct (drop_prefix (txt "PATTERN-") s) as [digits|] eqn:E; [|done].
  intros [Hd Hn]%andb_true_iff. exists digits.
  split; [by apply drop_prefix_Some|]. split; [done|].
  apply negb_true_iff in Hn. by apply bool_decide_eq_false in Hn.
Qed.

(** ** Texts without a character *)

Lemma without_join c sep l :
  without c sep = true → forallb (without c) l = true →
  without c (join sep l) = true.
Proof.
  intros Hsep. induction l as [|x l IH]; [done|].
  intros [Hx Hl]%andb_true_iff.
  destruct l as [|y l]; [done|].
  change (join sep (x :: y :: l)) with (x ++ sep ++ join sep (y :: l)).
  by rewrite !without_app, Hx, Hsep, IH.
Qed.

Lemma without_skills_text c l :
  without c (txt "- ") = true → without c [nl] = true →
  forallb (without c) l = true → without c (skills_text l) = true.
Proof.
  intros H1 H2. induction l as [|x l IH]; [done|].
  intros [Hx Hl]%andb_true_iff.
  change (skills_text (x :: l)) with ((txt "- " ++ x ++ [nl]) ++ skills_text l).
  by rewrite !without_app, H1, Hx, H2, IH.
Qed.

Lemma without_list_line c key l :
  without c key = true → without c (txt ", ") = true →
  without c [nl] = true → forallb (without c) l = true →
  without c (list_line key l) = true.
Proof.
  intros Hk Hs Hn Hl. destruct l as [|x l]; [done|].
  unfold list_line. by rewrite !without_app, Hk, Hn, without_join.
Qed.

Lemma digits_without_hash s : forallb isdigit s = true → without "#" s = true.
Proof. apply forallb_sub, digit_hash. Qed.

Lemma with_status_wf (f : Pattern.t → bool) s l :
  forallb f l = true → forallb f (with_status s l) = true.
Proof.
  intros H. apply forallb_forall. intros p Hp.
  rewrite forallb_forall in H. apply H.
  apply list_elem_of_In. apply list_elem_of_In in Hp.
  unfold with_status in Hp. by apply list_elem_of_filter in Hp as [_ ?].
Qed.

Lemma int_of_nonneg s : (0 ≤ int_of s)%Z.
Proof. unfold int_of, Z.of_uint. apply N2Z.is_nonneg. Qed.

Lemma has_shape_without c shape s :
  isdigit c = false → without c shape = true →
  has_shape shape s = true → without c s = true.
Proof.
  intros Hc. revert s; induction shape as [|a shape IH]; intros [|x s];
    simpl; try done.
  intros [Ha Hshape]%andb_true_iff [Hx Hs]%andb_true_iff.
  rewrite (IH s) by done. rewrite andb_true_r.
  destruct (Ascii.eqb_spec c x) as [<-|]; [|done].
  destruct (Ascii.eqb_spec a "d") as [->|_].
  - by rewrite Hc in Hx.
  - apply Ascii.eqb_eq in Hx as ->. by rewrite Ascii.eqb_refl in Ha.
Qed.

(** A time holds no [#] and no line feed. *)
Lemma is_time_without c s :
  isdigit c = false → without c (txt "dddd-dd-ddTdd:dd:dd.dddddd") = true →
  is_time s = true → without c s = true.
Proof.
  intros Hc Hw. unfold is_time. intros [H|H]%orb_true_iff.
  - revert H. apply has_shape_without; [done|].
    revert Hw. unfold without. cbn [txt list_ascii_of_string forallb].
    rewrite !andb_true_iff. tauto.
  - revert H. by apply has_shape_without.
Qed.

Lemma is_time_without_hash s : is_time s = true → without "#" s = true.
Proof. by apply is_time_without. Qed.

Lemma str_int_without_hash n : without "#" (str_int n) = true.
Proof.
  unfold str_int. destruct (Z.to_int n) as [d|d].
  - apply digits_without_hash, uint_text_digits.
  - cbn. apply digits_without_hash, uint_text_digits.
Qed.

Lemma status_value_without_hash st :
  without "#" (PatternStatus_value st) = true.
Proof. by destruct st. Qed.

End Document.

Section Reading.
Context {library : Datetime}.

(* ===================================================================== *)
(** ** What [_load_patterns] reads *)
(* ===================================================================== *)

(** A match [re.findall] lists stands somewhere in the text. *)
Lemma re_findall_from_elem {A} (m : text → option (A * text)) v k s :
  v ∈ re_findall_from m k s → ∃ a s' rest, s = a ++ s' ∧ m s' = Some (v, rest).
Proof.
  revert k. induction s as [|c s IH]; intros k; cbn [re_findall_from].
  - by intros ?%elem_of_nil.
  - destruct k as [|k].
    + destruct (m (c :: s)) as [[w rest]|] eqn:E.
      * intros [->|H]%elem_of_cons.
        -- by exists [], (c :: s), rest.
        -- destruct (IH _ H) as (a & s' & rest' & -> & Hm).
           by exists (c :: a), s', rest'.
      * intros H. destruct (IH _ H) as (a & s' & rest' & -> & Hm).
        by exists (c :: a), s', rest'.
    + intros H. destruct (IH _ H) as (a & s' & rest' & -> & Hm).
      by exists (c :: a), s', rest'.
Qed.

Lemma span_spec f s a b :
  span f s = (a, b) →
  s = a ++ b ∧ forallb f a = true
  ∧ match b with [] => True | c :: _ => f c = false end.
Proof.
  revert a b. induction s as [|c s IH]; intros a b; cbn [span].
  - by intros [= <- <-].
  - destruct (f c) eqn:E.
    + destruct (span f s) as [a' b'] eqn:Es. intros [= <- <-].
      destruct (IH _ _ eq_refl) as (-> & Ha & Hb).
      split; [done|]. split; [|done]. cbn. by rewrite E.
    + intros [= <- <-]. by rewrite E.
Qed.

Lemma read_class_Some class s c r :
  read_class class s = Some (c, r) → c ∈ class ∧ s = c ++ r.
Proof.
  induction class as [|x class IH]; cbn [read_class]; [done|].
  destruct (drop_prefix x s) as [r'|] eqn:E.
  - intros [= <- <-]. split; [apply list_elem_of_here|].
    by apply drop_prefix_Some.
  - intros [Hc Hs]%IH. split; [by apply list_elem_of_further|done].
Qed.

Lemma read_icon_Some s c r :
  read_icon s = Some (c, r) → c ∈ icon_class ∧ s = c ++ r.
Proof. apply read_class_Some. Qed.

(** No character of the class is a key of [status_map]: the status read
    is the default. *)
Lemma class_status c :
  c ∈ icon_class → dict_get status_map c TRACKING = TRACKING.
Proof.
  assert (Forall (λ c, dict_get status_map c TRACKING = TRACKING) icon_class)
    as H by (vm_compute; repeat constructor).
  rewrite Forall_forall in H. apply H.
Qed.

Lemma pattern_block_guarded : guarded (txt "### ") pattern_block.
Proof. intros s H. unfold pattern_block. by rewrite H. Qed.

Lemma pattern_block_icon s c pid name block rest :
  pattern_block s = Some ((c, pid, name, block), rest) → c ∈ icon_class.
Proof.
  unfold pattern_block.
  destruct (drop_prefix _ s) as [r1|]; [|done].
  destruct (read_icon r1) as [[c' r2]|] eqn:E2; [|done].
  apply read_icon_Some in E2 as [Hc _].
  destruct (drop_prefix _ r2) as [r3|]; [|done].
  destruct (span isdigit r3) as [[|d0 d] r4]; [done|].
  destruct (drop_prefix _ r4) as [[|x r5]|]; try done.
  destruct (find_sub _ r5) as [[n [|y r6]]|]; try done.
  destruct (until_header r6) as [bl rs]. by intros [= <- _ _ _ _].
Qed.

Lemma parse_pattern_fields now c pid name block :
  let p := parse_pattern now (c, pid, name, block) in
  Pattern.id p = pid
  ∧ Pattern.status p = dict_get status_map c TRACKING
  ∧ Pattern.category p = None
  ∧ Pattern.notes p = None.
Proof. done. Qed.

(** Every pattern [_load_patterns] reads is TRACKING and carries neither
    of the attributes [category] and [notes]. *)
Lemma loaded_fields now content p :
  p ∈ load_text now content →
  Pattern.status p = TRACKING
  ∧ Pattern.category p = None ∧ Pattern.notes p = None.
Proof.
  unfold load_text. intros (m & -> & Hm)%list_elem_of_fmap_1.
  apply re_findall_from_elem in Hm as (a & s' & rest & -> & Hm).
  destruct m as [[[c pid] name] block].
  apply pattern_block_icon in Hm.
  destruct (parse_pattern_fields now c pid name block) as (_ & -> & ? & ?).
  by rewrite class_status.
Qed.

Lemma loaded_status now fs p :
  p ∈ _load_patterns now fs → Pattern.status p = TRACKING.
Proof.
  unfold _load_patterns. destruct (patterns_file fs) as [content|];
    [|by intros ?%elem_of_nil].
  by intros (? & _)%loaded_fields.
Qed.

Lemma filter_none {A} (P : A → Prop) `{∀ x, Decision (P x)} (l : list A) :
  Forall (λ x, ¬ P x) l → filter P l = [].
Proof.
  induction 1 as [|x l Hx _ IH]; [done|].
  rewrite filter_cons. by destruct (decide (P x)).
Qed.

Lemma with_status_loaded now fs st :
  st ≠ TRACKING → with_status st (_load_patterns now fs) = [].
Proof.
  intros Hst. unfold with_status.
  apply filter_none, Forall_forall.
  intros p Hp. by rewrite (loaded_status now fs p Hp).
Qed.

(* ===================================================================== *)
(** ** What [_load_patterns] reads of a document [_save_patterns] wrote *)
(* ===================================================================== *)

Lemma re_findall_miss {A} (m : text → option (A * text)) x s :
  m (x :: s) = None → re_findall_from m 0 (x :: s) = re_findall_from m 0 s.
Proof. intros H. cbn [re_findall_from]. by rewrite H. Qed.

(** The block expression does not match at a heading [_format_pattern]
    writes: after the first character of the icon it asks for a space. *)
Lemma pattern_block_heading st rest :
  pattern_block (txt "### " ++ icon st ++ txt " " ++ rest) = None.
Proof. by destruct st; vm_compute. Qed.

Lemma heading_never st :
  never (txt "### ") (txt "## " ++ icon st ++ txt " ") = true.
Proof. by destruct st; vm_compute. Qed.

Lemma hash_free_fields p :
  hash_free p = true →
  without "#" (Pattern.id p) = true
  ∧ without "#" (Pattern.name p) = true
  ∧ without "#" (Pattern.description p) = true
  ∧ all_without "#" (Pattern.affected_skills p) = true
  ∧ all_without "#" (Pattern.refinement_ids p) = true
  ∧ all_without "#" (Pattern.projects p) = true
  ∧ without "#" (Pattern.first_seen p) = true
  ∧ without "#" (Pattern.last_seen p) = true.
Proof. unfold hash_free. rewrite !andb_true_iff. tauto. Qed.

Lemma body_without_hash p :
  hash_free p = true → without "#" (body_text p) = true.
Proof.
  intros (_ & _ & Hd & Hs & Hr & Hp & Hf & Hl)%hash_free_fields.
  unfold body_text.
  rewrite !without_app, !andb_true_iff.
  repeat split; try reflexivity; try done.
  - apply str_int_without_hash.
  - apply status_value_without_hash.
  - by apply without_skills_text.
  - by apply without_list_line.
  - by apply without_list_line.
Qed.

Lemma chunks_text_cons c cs :
  chunks_text (c :: cs) = chunk_text c ++ chunks_text cs.
Proof. done. Qed.

(** The scan of the block expression over chunks that hold no [#] of
    their own finds nothing. *)
Lemma findall_blind cs :
  forallb chunk_ok cs = true →
  re_findall pattern_block (chunks_text cs) = [].
Proof.
  unfold re_findall.
  induction cs as [|[t|p] cs IH]; [done| |].
  - cbn [forallb chunk_ok]. intros [Ht Hcs]%andb_true_iff.
    rewrite chunks_text_cons. cbn [chunk_text].
    rewrite (re_findall_never (txt "### ")); [by apply IH| |done].
    apply pattern_block_guarded.
  - cbn [forallb chunk_ok]. intros [Hp Hcs]%andb_true_iff.
    pose proof (body_without_hash p Hp) as Hbody.
    apply hash_free_fields in Hp as (Hid & Hname & _).
    rewrite chunks_text_cons. cbn [chunk_text]. unfold head_text.
    rewrite <-!app_assoc.
    change (txt "### " ++ ?r) with ("#"%char :: (txt "## " ++ r)).
    rewrite re_findall_miss
      by (apply (pattern_block_heading (Pattern.status p))).
    set (tail := Pattern.id p ++ txt ": " ++ Pattern.name p ++ [nl]
                 ++ body_text p).
    assert (never (txt "### ")
              ((txt "## " ++ icon (Pattern.status p) ++ txt " ") ++ tail)
            = true) as Hn.
    { apply never_app; [apply heading_never|].
      apply never_without. unfold tail.
      by rewrite !without_app, Hid, Hname, Hbody. }
    specialize (IH Hcs). rewrite <-IH.
    rewrite <-(re_findall_never (txt "### ") pattern_block _
                 (chunks_text cs) pattern_block_guarded Hn).
    f_equal. unfold tail. by rewrite <-!app_assoc.
Qed.

Lemma listed_ok l :
  forallb hash_free l = true →
  forallb chunk_ok (concat (map (λ p, [ Junk [nl]; Entry p ]) l)) = true.
Proof.
  induction l as [|p l IH]; [done|].
  cbn [map concat app forallb]. intros [Hp Hl]%andb_true_iff.
  rewrite IH by done. cbn [chunk_ok]. by rewrite Hp.
Qed.

Lemma section_ok none l :
  chunk_ok (Junk ([nl] ++ none ++ [nl])) = true →
  forallb hash_free l = true →
  forallb chunk_ok (section_chunks none l) = true.
Proof.
  intros Hnone Hl. destruct l as [|p l].
  - cbn [section_chunks forallb]. by rewrite Hnone.
  - by apply (listed_ok (p :: l)).
Qed.

Lemma preamble_ok now :
  without "#" now = true →
  chunk_ok
    (Junk (txt "# Aggregated Refinement Patterns"
           ++ lines_text
                [ txt "";
                  txt "> Auto-updated when pattern count >= "
                    ++ str_int GENERALIZATION_THRESHOLD;
                  txt "> Last updated: " ++ now;
                  txt "";
                  txt "## Ready for Generalization";
                  txt "" ])) = true.
Proof.
  intros Hnow.
  set (a := txt "# Aggregated Refinement Patterns"
            ++ lines_text
                 [ txt "";
                   txt "> Auto-updated when pattern count >= "
                     ++ str_int GENERALIZATION_THRESHOLD ]
            ++ nl :: txt "> Last updated: ").
  set (b := lines_text [ txt ""; txt "## Ready for Generalization"; txt "" ]).
  match goal with
  | |- chunk_ok (Junk ?t) = true => change t with (a ++ now ++ b)
  end.
  cbn [chunk_ok].
  apply never_app; [done|]. apply never_app; [|done].
  by apply never_without.
Qed.

Lemma document_chunks_ok now patterns :
  without "#" now = true → forallb hash_free patterns = true →
  forallb chunk_ok (document_chunks now patterns) = true.
Proof.
  intros Hnow Hwf. unfold document_chunks.
  rewrite !forallb_app.
  rewrite !section_ok by (done || by apply with_status_wf).
  cbn [forallb]. rewrite preamble_ok by done.
  pose proof (with_status_wf hash_free DISMISSED _ Hwf) as Hd.
  destruct (with_status DISMISSED patterns) as [|d ds]; [done|].
  rewrite forallb_app, (listed_ok (d :: ds)) by done.
  done.
Qed.

(** [_load_patterns] reads nothing of what [_save_patterns] wrote. *)
Lemma saved_not_read now now' patterns :
  without "#" now' = true → forallb hash_free patterns = true →
  load_text now (_save_patterns now' patterns) = [].
Proof.
  intros Hnow Hp. unfold load_text.
  rewrite save_chunks, findall_blind; [done|].
  by apply document_chunks_ok.
Qed.

End Reading.

Section Ids.
Context {library : Datetime}.

(* ===================================================================== *)
(** ** Fresh pattern ids *)
(* ===================================================================== *)

Lemma id_at_Some s d rest :
  id_at s = Some (d, rest) →
  s = txt "PATTERN-" ++ d ++ rest ∧ forallb isdigit d = true ∧ d ≠ []
  ∧ match rest with [] => True | c :: _ => isdigit c = false end.
Proof.
  unfold id_at. destruct (drop_prefix _ s) as [r|] eqn:E; [|done].
  apply drop_prefix_Some in E as ->.
  destruct (span isdigit r) as [a b] eqn:Es.
  apply span_spec in Es as (-> & Ha & Hb).
  destruct a as [|c a]; [done|]. by intros [= <- <-].
Qed.

Lemma id_at_hit d b :
  forallb isdigit d = true → d ≠ [] →
  match b with [] => True | c :: _ => isdigit c = false end →
  id_at (txt "PATTERN-" ++ d ++ b) = Some (d, b).
Proof.
  intros Hd Hne Hb. unfold id_at. rewrite drop_prefix_app.
  rewrite (span_app _ _ _ Hd Hb). by destruct d.
Qed.

(** The id of a block the block expression matches stands in the text,
    followed by the colon. *)
Lemma pattern_block_id s st pid name block rest :
  pattern_block s = Some ((st, pid, name, block), rest) →
  ∃ a d b, s = a ++ txt "PATTERN-" ++ d ++ ":"%char :: b
           ∧ pid = txt "PATTERN-" ++ d
           ∧ forallb isdigit d = true ∧ d ≠ [].
Proof.
  unfold pattern_block.
  destruct (drop_prefix _ s) as [r1|] eqn:E1; [|done].
  apply drop_prefix_Some in E1 as ->.
  destruct (read_icon r1) as [[i r2]|] eqn:E2; [|done].
  apply read_icon_Some in E2 as [_ ->].
  destruct (drop_prefix _ r2) as [r3|] eqn:E3; [|done].
  apply drop_prefix_Some in E3 as ->.
  destruct (span isdigit r3) as [d r4] eqn:E4.
  apply span_spec in E4 as (-> & Hd & _).
  destruct d as [|c d]; [done|].
  destruct (drop_prefix _ r4) as [r5|] eqn:E5; [|done].
  apply drop_prefix_Some in E5 as ->.
  destruct r5 as [|x r5]; [done|].
  destruct (find_sub _ r5) as [[n [|y r6]]|]; try done.
  destruct (until_header r6) as [bl rs]. intros [= <- <- <- <- <-].
  exists (txt "### " ++ i ++ txt " "), (c :: d), (" "%char :: x :: r5).
  split; [|done]. by rewrite <-!app_assoc.
Qed.

(** A match of [PATTERN-(\d+)] that begins before another occurrence of
    [PATTERN-] ends before it. *)
Lemma id_match_ends_before v rest c a x :
  forallb isdigit v = true →
  txt "PATTERN-" ++ v ++ rest = (c :: a) ++ txt "PATTERN-" ++ x →
  (length (txt "PATTERN-" ++ v) ≤ length (c :: a))%nat.
Proof.
  intros Hv Heq.
  destruct (decide (length (txt "PATTERN-" ++ v) ≤ length (c :: a))%nat)
    as [|Hlt]; [done|exfalso].
  apply (f_equal (drop (length (c :: a)))) in Heq.
  rewrite drop_app_length in Heq.
  set (n := length (c :: a)) in *.
  assert (1 ≤ n)%nat as Hn1 by (unfold n; cbn; lia).
  rewrite length_app in Hlt. cbn [txt list_ascii_of_string length] in Hlt.
  destruct (decide (n < 8)%nat) as [Hn8|Hn8].
  - clearbody n. do 8 (destruct n as [|n]; [by (lia || done)|]). lia.
  - replace n with (8 + (n - 8))%nat in Heq by lia.
    change (txt "PATTERN-" ++ v ++ rest)
      with (txt "PATTERN-" ++ (v ++ rest)) in Heq.
    rewrite <-(drop_drop _ (n - 8) 8) in Heq.
    change (drop 8 (txt "PATTERN-" ++ (v ++ rest))) with (v ++ rest) in Heq.
    assert (n - 8 < length v)%nat as Hv' by lia.
    destruct (lookup_lt_is_Some_2 v (n - 8) Hv') as [y Hy].
    assert (isdigit y = true) as Hdy.
    { rewrite forallb_forall in Hv. apply Hv.
      apply list_elem_of_In. by eapply list_elem_of_lookup_2. }
    apply (f_equal (λ l, l !! 0%nat)) in Heq.
    rewrite lookup_drop, Nat.add_0_r, lookup_app_l, Hy in Heq by done.
    cbn in Heq. injection Heq as ->. done.
Qed.

(** [re.findall] lists every [PATTERN-] followed by digits. *)
Lemma findall_id_from a d b k :
  forallb isdigit d = true → d ≠ [] →
  match b with [] => True | c :: _ => isdigit c = false end →
  (k ≤ length a)%nat →
  d ∈ re_findall_from id_at k (a ++ txt "PATTERN-" ++ d ++ b).
Proof.
  intros Hd Hne Hb. revert k.
  induction a as [|c a IH]; intros k Hk.
  - assert (k = 0)%nat as -> by (cbn in Hk; lia).
    pose proof (id_at_hit d b Hd Hne Hb) as Hhit.
    cbn [app]. cbn [app txt list_ascii_of_string] in Hhit |- *.
    cbn [re_findall_from]. rewrite Hhit. apply list_elem_of_here.
  - cbn [app re_findall_from]. destruct k as [|k].
    + destruct (id_at (c :: a ++ txt "PATTERN-" ++ d ++ b))
        as [[v rest]|] eqn:E.
      * apply list_elem_of_further, IH.
        apply id_at_Some in E as (Heq & Hv & _ & _).
        pose proof Heq as Hlen. apply (f_equal length) in Hlen.
        change (c :: a ++ txt "PATTERN-" ++ d ++ b)
          with ((c :: a) ++ txt "PATTERN-" ++ (d ++ b)) in Heq.
        symmetry in Heq.
        pose proof (id_match_ends_before _ _ _ _ _ Hv Heq) as Hend.
        cbn [length] in Hlen, Hend. rewrite !length_app in *.
        cbn [length] in *. lia.
      * apply IH. lia.
    + apply IH. cbn in Hk. lia.
Qed.

Lemma int_of_zeros k s : int_of (repeat "0"%char k ++ s) = int_of s.
Proof. induction k as [|k IH]; [done|]. cbn [repeat app]. by rewrite <-IH. Qed.

Lemma int_of_pad3 (n : Z) : (0 ≤ n)%Z → int_of (pad3 n) = n.
Proof. intros Hn. unfold pad3. by rewrite int_of_zeros, int_of_str_int. Qed.

Lemma foldr_max_ge (x : Z) l y : y ∈ x :: l → (y ≤ foldr Z.max x l)%Z.
Proof.
  induction l as [|z l IH]; cbn [foldr].
  - intros E%list_elem_of_singleton. lia.
  - intros [E|[E|H]%elem_of_cons]%elem_of_cons.
    + assert (y ≤ foldr Z.max x l)%Z; [|lia].
      apply IH. rewrite E. apply list_elem_of_here.
    + lia.
    + assert (y ≤ foldr Z.max x l)%Z; [|lia].
      by apply IH, list_elem_of_further.
Qed.

(** The id [get_pattern_id] returns numbers above every [PATTERN-n] of the
    document. *)
Lemma get_pattern_id_above fs content a d b :
  patterns_file fs = Some content →
  content = a ++ txt "PATTERN-" ++ d ++ b →
  forallb isdigit d = true → d ≠ [] →
  match b with [] => True | c :: _ => isdigit c = false end →
  ∃ n, get_pattern_id fs = txt "PATTERN-" ++ pad3 n ∧ (int_of d < n)%Z.
Proof.
  intros Hfile -> Hd Hne Hb. unfold get_pattern_id. rewrite Hfile.
  pose proof (findall_id_from a d b 0 Hd Hne Hb ltac:(lia)) as Hin.
  fold (re_findall id_at (a ++ txt "PATTERN-" ++ d ++ b)) in Hin.
  destruct (re_findall id_at _) as [|m ms]; [by apply elem_of_nil in Hin|].
  eexists. split; [done|].
  assert (int_of d ≤ foldr Z.max (int_of m) (map int_of ms))%Z; [|lia].
  apply foldr_max_ge. change (int_of m :: map int_of ms) with (map int_of (m :: ms)).
  by apply list_elem_of_fmap_2.
Qed.

Lemma loaded_id_stands now content p :
  p ∈ load_text now content →
  ∃ a d b, content = a ++ txt "PATTERN-" ++ d ++ ":"%char :: b
           ∧ Pattern.id p = txt "PATTERN-" ++ d
           ∧ forallb isdigit d = true ∧ d ≠ [].
Proof.
  unfold load_text. intros (m & -> & Hm)%list_elem_of_fmap_1.
  apply re_findall_from_elem in Hm as (a & s' & rest & -> & Hm).
  destruct m as [[[st pid] name] block].
  apply pattern_block_id in Hm as (a' & d & b & -> & -> & Hd & Hne).
  exists (a ++ a'), d, b. split; [by rewrite <-app_assoc|done].
Qed.

Lemma new_id_fresh_aux now fs p :
  p ∈ _load_patterns now fs →
  Pattern.id p ≠ get_pattern_id fs
  ∧ ∃ d n, Pattern.id p = txt "PATTERN-" ++ d
           ∧ get_pattern_id fs = txt "PATTERN-" ++ pad3 n
           ∧ (int_of d < n)%Z.
Proof.
  unfold _load_patterns. destruct (patterns_file fs) as [content|] eqn:Hfile;
    [|by intros ?%elem_of_nil].
  intros (a & d & b & Hc & Hid & Hd & Hne)%loaded_id_stands.
  destruct (get_pattern_id_above fs content a d (":"%char :: b) Hfile Hc Hd
              Hne eq_refl) as (n & Hnew & Hlt).
  split; [|by exists d, n].
  rewrite Hid, Hnew. intros Heq%app_inv_head.
  pose proof (int_of_nonneg d) as H0.
  assert (0 ≤ n)%Z as Hn by lia.
  rewrite Heq, int_of_pad3 in Hlt by done. lia.
Qed.

(** X1.  The id [get_pattern_id] returns is [PATTERN-] and a number above
    the number of every pattern [_load_patterns] reads from the document:
    no stored pattern carries the new id. *)
Theorem new_id_is_fresh (now : datetime) (fs : Files) (p : Pattern.t) :
  p ∈ _load_patterns now fs →
  Pattern.id p ≠ get_pattern_id fs
  ∧ ∃ d n, Pattern.id p = txt "PATTERN-" ++ d
           ∧ get_pattern_id fs = txt "PATTERN-" ++ pad3 n
           ∧ (int_of d < n)%Z.
Proof. apply new_id_fresh_aux. Qed.

End Ids.

Section Queue.
Context {library : Datetime}.

(* ===================================================================== *)
(** ** The queue document *)
(* ===================================================================== *)

Lemma contains_app_r k a b : contains k b = true → contains k (a ++ b) = true.
Proof.
  intros (x & y & ->)%contains_spec. apply contains_spec.
  exists (a ++ x), y. by rewrite <-app_assoc.
Qed.

Lemma contains_app_l k a b : contains k a = true → contains k (a ++ b) = true.
Proof.
  intros (x & y & ->)%contains_spec. apply contains_spec.
  exists x, (y ++ b). by rewrite <-!app_assoc.
Qed.

Lemma contains_here k b : contains k (k ++ b) = true.
Proof. apply contains_spec. by exists [], b. Qed.

Lemma queue_entry_head p :
  ∃ rest, _format_queue_entry p = txt "### " ++ Pattern.id p ++ rest.
Proof.
  unfold _format_queue_entry. rewrite join_lines.
  eexists. by rewrite <-!app_assoc.
Qed.

Lemma ensure_ensured now now' fs :
  ensure_user_refinements_dir now' (ensure_user_refinements_dir now fs)
  = ensure_user_refinements_dir now fs.
Proof. done. Qed.

(** After [_add_to_generalization_queue] the queue document exists and
    the id of the pattern occurs in it. *)
Lemma added_id_occurs now p fs :
  ∃ q, queue_file (_add_to_generalization_queue now p fs) = Some q
       ∧ contains (Pattern.id p) q = true
       ∧ ensure_user_refinements_dir now
           (_add_to_generalization_queue now p fs)
         = _add_to_generalization_queue now p fs.
Proof.
  unfold _add_to_generalization_queue. cbv zeta.
  cbn [ensure_user_refinements_dir queue_file default from_option].
  set (q0 := from_option id _get_generalization_queue_template (queue_file fs)).
  change (id q0) with q0.
  destruct (contains (Pattern.id p) q0) eqn:Hc.
  - by exists q0.
  - destruct (queue_entry_head p) as [rest ->].
    eexists. split; [done|]. split; [|done].
    destruct (find_sub _ q0) as [[before after]|].
    + apply contains_app_r, contains_app_r, contains_app_r.
      rewrite <-?app_assoc. apply contains_app_r, contains_here.
    + apply contains_app_r, contains_app_r, contains_app_r, contains_app_r.
      rewrite <-?app_assoc. apply contains_app_r, contains_here.
Qed.

(** X3.  [_add_to_generalization_queue] leaves a queue document in which
    the id of the pattern occurs, and a second call for the same pattern
    changes nothing: a pattern is entered once. *)
Theorem queue_add_is_idempotent (now now' : datetime) (p : Pattern.t)
    (fs : Files) :
  let fs1 := _add_to_generalization_queue now p fs in
  (∃ q, queue_file fs1 = Some q ∧ contains (Pattern.id p) q = true)
  ∧ _add_to_generalization_queue now' p fs1 = fs1.
Proof.
  intros fs1. destruct (added_id_occurs now p fs) as (q & Hq & Hc & He).
  fold fs1 in Hq, He. split; [by exists q|].
  unfold _add_to_generalization_queue at 1. cbv zeta.
  assert (ensure_user_refinements_dir now' fs1 = fs1) as ->.
  { rewrite <-He. apply ensure_ensured. }
  rewrite Hq. change (default _create_queue_header (Some q)) with q.
  by rewrite Hc.
Qed.

Lemma save_keeps_queue now l fs q :
  queue_file fs = Some q → queue_file (save now l fs) = Some q.
Proof.
  intros H. unfold save, write_patterns, ensure_user_refinements_dir.
  cbn [queue_file]. by rewrite H.
Qed.

Lemma matched_or_created_status now r fs :
  (2 ≤ Pattern.count (match_or_create now r fs).2)%Z →
  Pattern.status (match_or_create now r fs).2 ≠ GENERALIZED.
Proof.
  unfold match_or_create. cbn [snd].
  rewrite find_matching_list_find.
  destruct (list_find _ _) as [[i m]|] eqn:E.
  - apply list_find_Some in E as (_ & [Hterm _] & _).
    intros _. cbn [_update_pattern Pattern.status].
    by destruct (Pattern.status m).
  - cbn [_create_pattern Pattern.count]. lia.
Qed.

(** X4.  When the pattern [process_new_refinement] returns has reached
    the threshold, it is READY and its id occurs in the queue document;
    below the threshold the call leaves the queue document as
    [ensure_user_refinements_dir] gives it. *)
Theorem threshold_queues_pattern (now : datetime) (r : Refinement.t)
    (fs : Files) :
  let res := process_new_refinement now r fs in
  ((2 ≤ Pattern.count res.1)%Z →
   Pattern.status res.1 = READY
   ∧ ∃ q, queue_file res.2 = Some q ∧ contains (Pattern.id res.1) q = true)
  ∧ ((Pattern.count res.1 < 2)%Z →
     queue_file res.2 = queue_file (ensure_user_refinements_dir now fs)).
Proof.
  unfold process_new_refinement.
  pose proof (matched_or_created_status now r fs) as Hst.
  destruct (match_or_create now r fs) as [found p0]. cbn [snd] in Hst.
  unfold check_threshold, GENERALIZATION_THRESHOLD.
  destruct (Z.leb_spec 2 (Pattern.count p0)) as [Hc|Hc].
  - specialize (Hst Hc). rewrite bool_decide_eq_false_2 by done.
    cbn [negb fst snd].
    split; [intros _|cbn [Pattern.count Pattern.set_status]; lia].
    split; [done|].
    destruct (added_id_occurs now (Pattern.set_status READY p0) fs)
      as (q & Hq & Hin & _).
    exists q. split; [|done]. by apply save_keeps_queue.
  - cbn [fst snd]. split; [lia|]. by intros _.
Qed.

Lemma re_delete_none (m : text → option text) s :
  (∀ a s', s = a ++ s' → m s' = None) → re_delete_from m 0 s = s.
Proof.
  induction s as [|c s IH]; intros H; [done|].
  cbn [re_delete_from]. rewrite (H [] (c :: s) eq_refl).
  f_equal. apply IH. intros a s' ->. by apply (H (c :: a)).
Qed.

(** X5.  [_remove_from_queue] changes nothing when the queue document is
    missing or holds no entry heading of the pattern id. *)
Theorem removal_without_entry (pattern_id : text) (fs : Files) :
  is_pattern_id pattern_id = true →
  match queue_file fs with
  | Some content =>
      contains (txt "### " ++ pattern_id ++ txt ": ") content
  | None => false
  end = false →
  _remove_from_queue pattern_id fs = fs.
Proof.
  intros _ H. unfold _remove_from_queue.
  destruct fs as [pf [content|]]; [|done]. cbn [queue_file] in *.
  unfold write_queue. cbn [patterns_file queue_file]. do 2 f_equal.
  apply re_delete_none. intros a s' ->.
  unfold entry_at. destruct (drop_prefix _ s') as [r|] eqn:E; [|done].
  apply drop_prefix_Some in E as ->.
  unfold contains in H.
  destruct (find_sub _ _) as [|] eqn:Hf; [done|].
  by apply (find_sub_None _ _ a r) in Hf.
Qed.

End Queue.

Section Saving.
Context {library : Datetime}.

(** ** White space *)

Lemma lstrip_spaces w t : forallb isspace w = true → lstrip (w ++ t) = lstrip t.
Proof.
  induction w as [|x w IH]; simpl; [done|].
  intros [-> Hw]%andb_true_iff. by apply IH.
Qed.

Lemma lstrip_nil_spaces s : lstrip s = [] → forallb isspace s = true.
Proof.
  induction s as [|x s IH]; simpl; [done|].
  destruct (isspace x); [by apply IH|done].
Qed.

Lemma lstrip_app s t : lstrip s ≠ [] → lstrip (s ++ t) = lstrip s ++ t.
Proof.
  induction s as [|x s IH]; simpl; [done|].
  destruct (isspace x); [by apply IH|done].
Qed.

Lemma lstrip_head c s : isspace c = false → lstrip (c :: s) = c :: s.
Proof. simpl. by intros ->. Qed.

Lemma recheck_cases p :
  recheck p
  = match (GENERALIZATION_THRESHOLD <=? Pattern.count p)%Z,
          Pattern.status p with
    | true, TRACKING => (Pattern.set_status READY p, true)
    | false, READY => (Pattern.set_status TRACKING p, false)
    | _, _ => (p, false)
    end.
Proof.
  unfold recheck. destruct (_ <=? _)%Z; by destruct (Pattern.status p).
Qed.


(* ===================================================================== *)
(** ** What the patterns document does not hold *)
(* ===================================================================== *)

Lemma with_status_map (f : Pattern.t → Pattern.t) s l :
  (∀ p, Pattern.status (f p) = Pattern.status p) →
  with_status s (map f l) = map f (with_status s l).
Proof.
  intros Hf. unfold with_status. induction l as [|p l IH]; [done|].
  cbn [map]. rewrite !filter_cons, Hf.
  destruct (decide (Pattern.status p = s)); cbn [map]; by rewrite IH.
Qed.

Lemma section_lines_map (f : Pattern.t → Pattern.t) none l :
  (∀ p, _format_pattern (f p) = _format_pattern p) →
  section_lines none (map f l) = section_lines none l.
Proof.
  intros Hf. destruct l as [|p l]; [done|].
  cbn [map section_lines]. rewrite Hf. do 2 f_equal.
  induction l as [|q l IH]; [done|]. cbn [map]. by rewrite Hf, IH.
Qed.

(** The document depends on the status of each pattern and on what
    [_format_pattern] writes of it. *)
Lemma save_map (f : Pattern.t → Pattern.t) now l :
  (∀ p, Pattern.status (f p) = Pattern.status p) →
  (∀ p, _format_pattern (f p) = _format_pattern p) →
  _save_patterns now (map f l) = _save_patterns now l.
Proof.
  intros Hs Hf. unfold _save_patterns, document_lines.
  rewrite !(with_status_map f) by done.
  rewrite !(section_lines_map f) by done.
  do 7 f_equal.
  pose proof (section_lines_map f [] (with_status DISMISSED l) Hf) as H.
  destruct (with_status DISMISSED l) as [|p l']; [done|].
  cbn [map section_lines] in H |- *. by rewrite H.
Qed.

Lemma save_insert_notes now (l : list Pattern.t) i n q :
  _save_patterns now (<[i := Pattern.set_notes n q]> l)
  = _save_patterns now (<[i := Pattern.set_notes None q]> (map (Pattern.set_notes None) l)).
Proof.
  rewrite <-(save_map (Pattern.set_notes None) now
               (<[i := Pattern.set_notes n q]> l)) by (by intros []).
  change (map (Pattern.set_notes None) (<[i := Pattern.set_notes n q]> l))
    with (Pattern.set_notes None <$> <[i := Pattern.set_notes n q]> l).
  by rewrite list_fmap_insert.
Qed.

(** X11.  The reason given to [dismiss_pattern] reaches neither document:
    the call returns the same result and leaves the same state whatever
    the reason. *)
Theorem dismissal_reason_is_not_stored (now : datetime)
    (pattern_id reason reason' : text) (fs : Files) :
  dismiss_pattern now pattern_id reason fs
  = dismiss_pattern now pattern_id reason' fs.
Proof.
  unfold dismiss_pattern. cbv zeta.
  destruct (list_find _ _) as [[i p]|]; [|done].
  unfold save.
  by rewrite (save_insert_notes _ _ _ (Some (_ ++ _ ++ _ ++ reason))),
       (save_insert_notes _ _ _ (Some (_ ++ _ ++ _ ++ reason'))).
Qed.

(* ===================================================================== *)
(** ** What [check_all_patterns] returns *)
(* ===================================================================== *)

Lemma recheck_promoted p :
  recheck p = if decide (promoted p) then (Pattern.set_status READY p, true)
              else ((recheck p).1, false).
Proof.
  rewrite (recheck_cases p). destruct (decide (promoted p)) as [[Hs Hc]|Hn].
  - rewrite Hs. apply Z.leb_le in Hc. by rewrite Hc.
  - destruct (_ <=? _)%Z eqn:E; destruct (Pattern.status p) eqn:Hs; try done.
    exfalso. apply Hn. split; [done|]. by apply Z.leb_le.
Qed.

Lemma check_loop_ready now l fs :
  (check_loop now l fs).1.2
  = map (Pattern.set_status READY) (filter promoted l).
Proof.
  revert fs. induction l as [|p l IH]; intros fs; [done|].
  cbn [check_loop]. rewrite (recheck_promoted p), filter_cons.
  destruct (decide (promoted p)).
  - specialize (IH (_add_to_generalization_queue now
                      (Pattern.set_status READY p) fs)).
    destruct (check_loop now l _) as [[a b] c]. cbn in IH |- *. by rewrite IH.
  - specialize (IH fs).
    destruct (check_loop now l _) as [[a b] c]. cbn in IH |- *. by rewrite IH.
Qed.

(** An occurrence of a text that holds no [w] and begins with no space
    survives the insertion of an entry under the heading of the queue. *)
Lemma occurrence_survives c k before after entry :
  isspace c = false → "w"%char ∉ c :: k →
  contains (c :: k) (before ++ txt "## Ready for Review" ++ after) = true →
  contains (c :: k)
    (before ++ txt "## Ready for Review" ++ [nl; nl] ++ entry ++ lstrip after)
  = true.
Proof.
  intros Hc Hw (x & y & Heq)%contains_spec.
  assert (∀ z, after = z ++ (c :: k) ++ y →
            contains (c :: k) (lstrip after) = true) as Hafter.
  { intros z ->. destruct (decide (lstrip z = [])) as [Hz|Hz].
    - rewrite lstrip_spaces by (by apply lstrip_nil_spaces).
      cbn [app]. rewrite lstrip_head by done. apply (contains_here (c :: k)).
    - rewrite lstrip_app by done. apply contains_app_r, contains_here. }
  rewrite (app_assoc before) in Heq.
  symmetry in Heq. apply app_eq_inv in Heq as [(z & Hz & Ha)|(z & Hz & Ha)].
  - do 4 apply contains_app_r. by apply (Hafter z).
  - apply app_eq_inv in Ha as [(z' & Hk & Ha)|(z' & Hk & Ha)].
    + destruct z as [|d z].
      * do 4 apply contains_app_r. apply (Hafter []). cbn [app] in Hk.
        by rewrite Ha, <-Hk.
      * exfalso. apply Hw. rewrite Hk. apply elem_of_app. left.
        assert (last (before ++ txt "## Ready for Review") = Some "w"%char)
          as Hlast by (by rewrite last_app).
        rewrite Hz, last_app in Hlast.
        destruct (last (d :: z)) as [e|] eqn:E;
          [|by apply last_None in E].
        injection Hlast as ->. apply last_Some in E as [l' ->].
        apply elem_of_app. right. apply list_elem_of_here.
    + apply contains_spec.
      exists x, (z' ++ [nl; nl] ++ entry ++ lstrip after).
      by rewrite (app_assoc before), Hz, Hk, <-!app_assoc.
Qed.

Lemma add_keeps_occurrence c k now p fs :
  isspace c = false → "w"%char ∉ c :: k →
  (∃ q, queue_file fs = Some q ∧ contains (c :: k) q = true) →
  ∃ q, queue_file (_add_to_generalization_queue now p fs) = Some q
       ∧ contains (c :: k) q = true.
Proof.
  intros Hc Hw (q & Hq & Hin).
  unfold _add_to_generalization_queue. cbv zeta.
  cbn [ensure_user_refinements_dir queue_file]. rewrite Hq.
  change (default _create_queue_header (Some (default
            _get_generalization_queue_template (Some q)))) with q.
  destruct (contains (Pattern.id p) q).
  { exists q. split; [|done]. cbn [ensure_user_refinements_dir queue_file].
    by rewrite Hq. }
  eexists. split; [done|].
  destruct (find_sub _ q) as [[before after]|] eqn:E.
  - apply find_sub_Some in E as ->. by apply occurrence_survives.
  - by apply contains_app_l.
Qed.

Lemma check_loop_keeps_occurrence c k now l fs :
  isspace c = false → "w"%char ∉ c :: k →
  (∃ q, queue_file fs = Some q ∧ contains (c :: k) q = true) →
  ∃ q, queue_file (check_loop now l fs).2 = Some q
       ∧ contains (c :: k) q = true.
Proof.
  intros Hc Hw. revert fs. induction l as [|p l IH]; intros fs H; [done|].
  cbn [check_loop]. destruct (recheck p) as [p' [|]].
  - specialize (IH _ (add_keeps_occurrence c k now p' fs Hc Hw H)).
    by destruct (check_loop now l _) as [[a b] f].
  - specialize (IH fs H). by destruct (check_loop now l _) as [[a b] f].
Qed.

Lemma pattern_id_chars d :
  forallb isdigit d = true →
  isspace "P" = false ∧ "w"%char ∉ txt "PATTERN-" ++ d.
Proof.
  intros Hd. split; [done|].
  intros [H|H]%elem_of_app.
  - by repeat (apply elem_of_cons in H as [H|H]; [done|]);
      apply elem_of_nil in H.
  - rewrite forallb_forall in Hd. by apply list_elem_of_In, Hd in H.
Qed.

Lemma check_loop_queues now l fs p :
  (∃ d, Pattern.id p = txt "PATTERN-" ++ d ∧ forallb isdigit d = true) →
  p ∈ (check_loop now l fs).1.2 →
  ∃ q, queue_file (check_loop now l fs).2 = Some q
       ∧ contains (Pattern.id p) q = true.
Proof.
  intros (d & Hid & Hd). destruct (pattern_id_chars d Hd) as [Hc Hw].
  rewrite Hid. revert fs. induction l as [|x l IH]; intros fs;
    [by intros ?%elem_of_nil|].
  cbn [check_loop]. destruct (recheck x) as [x' [|]].
  - pose proof (check_loop_keeps_occurrence "P" (txt "ATTERN-" ++ d) now l
                  (_add_to_generalization_queue now x' fs) Hc Hw) as Hkeep.
    specialize (IH (_add_to_generalization_queue now x' fs)).
    destruct (check_loop now l _) as [[a b] f]. cbn [fst snd app] in *.
    intros [->|Hp]%elem_of_cons; [|by apply IH].
    apply Hkeep. destruct (added_id_occurs now x' fs) as (q & Hq & Hin & _).
    exists q. split; [done|]. rewrite Hid in Hin. exact Hin.
  - specialize (IH fs).
    destruct (check_loop now l _) as [[a b] f]. cbn [fst snd app] in *.
    apply IH.
Qed.

Lemma loaded_id_shape now fs p :
  p ∈ _load_patterns now fs →
  ∃ d, Pattern.id p = txt "PATTERN-" ++ d ∧ forallb isdigit d = true.
Proof.
  unfold _load_patterns. destruct (patterns_file fs) as [content|];
    [|by intros ?%elem_of_nil].
  intros (a & d & b & _ & Hid & Hd & _)%loaded_id_stands. by exists d.
Qed.

(** X12.  [check_all_patterns] returns, in the order of the store, the
    patterns it promotes, READY: those read as TRACKING with a count at
    the threshold or above, not the patterns that were READY before; and
    the id of every pattern returned occurs in the queue document
    afterwards. *)
Theorem check_all_returns_promoted (now : datetime) (fs : Files) :
  let res := check_all_patterns now fs in
  res.1 = map (Pattern.set_status READY)
            (filter promoted (_load_patterns now fs))
  ∧ ∀ p, p ∈ res.1 →
         ∃ q, queue_file res.2 = Some q ∧ contains (Pattern.id p) q = true.
Proof.
  unfold check_all_patterns.
  pose proof (check_loop_ready now (_load_patterns now fs) fs) as Hready.
  pose proof (check_loop_queues now (_load_patterns now fs) fs) as Hq.
  destruct (check_loop now _ fs) as [[a b] f]. cbn [fst snd] in *.
  split; [done|]. intros p Hp.
  destruct (Hq p) as (q & Hf & Hin); [|done|].
  - rewrite Hready in Hp.
    apply list_elem_of_fmap in Hp as (p0 & -> & Hp0).
    apply list_elem_of_filter in Hp0 as [_ Hp0].
    by apply (loaded_id_shape now fs p0).
  - exists q. split; [|done]. by apply save_keeps_queue.
Qed.

End Saving.

Section Matching.
Context {library : Datetime}.

(** ** Characters kept by the operations on texts *)

Lemma squeeze_hyphens_forallb (f : ascii → bool) s :
  forallb f s = true → forallb f (squeeze_hyphens s) = true.
Proof.
  induction s as [|c s IH]; [done|].
  intros [Hc Hs]%andb_true_iff. specialize (IH Hs).
  destruct s as [|d s]; simpl; [by rewrite Hc|].
  destruct (Ascii.eqb c "-" && Ascii.eqb d "-"); [done|].
  simpl in IH |- *. by rewrite Hc, IH.
Qed.


(* ===================================================================== *)
(** ** The matcher on stored patterns *)
(* ===================================================================== *)

(** The share of the words in common lies between 0 and 1. *)
Lemma overlap_bounds r p :
  let overlap :=
    (inject_Z (Z.of_nat (length (common_words r p)))
     / inject_Z (Z.of_nat (Nat.max (Nat.max (length (ref_words r))
                                     (length (pattern_words p))) 1)))%Q in
  (0 <= overlap)%Q ∧ (overlap <= 1)%Q.
Proof.
  intros overlap. unfold overlap.
  set (a := length (common_words r p)).
  set (b := Nat.max (Nat.max (length (ref_words r))
                       (length (pattern_words p))) 1).
  assert (a ≤ b)%nat as Hab.
  { unfold a, b, common_words.
    pose proof (length_filter (λ w, w ∈ pattern_words p) (ref_words r)). lia. }
  assert (1 ≤ b)%nat as Hb by (unfold b; lia).
  assert (0 < inject_Z (Z.of_nat b))%Q as Hpos.
  { rewrite <-(Zlt_Qlt 0). lia. }
  split.
  - apply Qle_shift_div_l; [done|]. rewrite Qmult_0_l.
    rewrite <-(Zle_Qle 0). lia.
  - apply Qle_shift_div_r; [done|]. rewrite Qmult_1_l.
    rewrite <-Zle_Qle. lia.
Qed.

(** A pattern without the [category] attribute is eligible exactly when
    skill and section agree. *)
Lemma eligible_skill_and_section r p :
  Pattern.category p = None →
  eligible r p ↔ same_skill_and_section r p = true.
Proof.
  intros Hcat. unfold eligible, same_skill_and_section, _calculate_similarity,
    category_matches, SIMILARITY_THRESHOLD.
  rewrite Hcat. cbv zeta.
  destruct (overlap_bounds r p) as [H0 H1]. cbv zeta in H0, H1.
  set (o := (inject_Z _ / inject_Z _)%Q) in *.
  rewrite Q.min_glb_iff.
  destruct (is_terminal (Pattern.status p)); cbn [negb andb].
  { split; [by intros [? _]|done]. }
  destruct (bool_decide (Refinement.skill r ∈ Pattern.affected_skills p));
    destruct (bool_decide (Refinement.target_section r = []));
    destruct (contains (Refinement.target_section r) (Pattern.description p));
    destruct (bool_decide (common_words r p = []));
    cbn [negb andb];
    (split; [intros (_ & ? & _); first [done|exfalso; lra]
            |intros ?; first [done|split; [done|split; lra]]]).
Qed.

Lemma loaded_without_category now fs :
  Forall (λ p, Pattern.category p = None) (_load_patterns now fs).
Proof.
  unfold _load_patterns. destruct (patterns_file fs) as [content|]; [|done].
  unfold load_text. apply Forall_fmap, Forall_forall.
  by intros [[[st pid] name] block] _.
Qed.

Lemma list_find_ext_Forall {A} (P Q : A → Prop)
    `{∀ x, Decision (P x)} `{∀ x, Decision (Q x)} (l : list A) :
  Forall (λ x, P x ↔ Q x) l → list_find P l = list_find Q l.
Proof.
  induction 1 as [|x l Hx _ IH]; [done|].
  cbn [list_find]. rewrite IH.
  destruct (decide (P x)), (decide (Q x)); tauto || done.
Qed.

(** X14.  For a pattern without the [category] attribute, as every
    pattern read from the store is, the score reaches 0.6 exactly when the
    skill of the Refinement is among the affected skills and its target
    section, not empty, occurs in the description: the words in common
    never decide.  On the stored patterns [_find_matching_pattern]
    returns the first pattern, not GENERALIZED or DISMISSED, for which
    both hold. *)
Theorem stored_match_is_skill_and_section :
  (∀ r p, Pattern.category p = None →
     (SIMILARITY_THRESHOLD <= _calculate_similarity r p)%Q
     ↔ Refinement.skill r ∈ Pattern.affected_skills p
       ∧ Refinement.target_section r ≠ []
       ∧ contains (Refinement.target_section r) (Pattern.description p)
         = true)
  ∧ (∀ now fs r,
       _find_matching_pattern r (_load_patterns now fs)
       = list_find (λ p, same_skill_and_section r p = true)
           (_load_patterns now fs)).
Proof.
  split.
  - intros r p Hcat.
    pose proof (eligible_skill_and_section r
                  (Pattern.set_status TRACKING p) Hcat) as H.
    unfold eligible, same_skill_and_section in H.
    cbn [Pattern.set_status Pattern.status Pattern.affected_skills
         Pattern.description is_terminal negb andb] in H.
    assert (_calculate_similarity r (Pattern.set_status TRACKING p)
            = _calculate_similarity r p) as Hs by (by destruct p).
    rewrite Hs in H.
    rewrite !andb_true_iff, negb_true_iff, bool_decide_eq_true,
      bool_decide_eq_false in H.
    split.
    + intros Hle. destruct H as [H _]. destruct (H (conj eq_refl Hle))
        as [[? ?] ?]. done.
    + intros (? & ? & ?). by apply H.
  - intros now fs r. rewrite find_matching_list_find.
    apply list_find_ext_Forall.
    eapply Forall_impl; [apply loaded_without_category|].
    intros p Hcat. by apply eligible_skill_and_section.
Qed.

(* ===================================================================== *)
(** ** The generated pattern name *)
(* ===================================================================== *)

Lemma join_cons sep x l :
  join sep (x :: l) = x ++ concat (map (λ y, sep ++ y) l).
Proof.
  revert x. induction l as [|y l IH]; intros x.
  - by rewrite app_nil_r.
  - change (join sep (x :: y :: l)) with (x ++ sep ++ join sep (y :: l)).
    rewrite (IH y). cbn [map concat]. by rewrite <-app_assoc.
Qed.

Lemma squeeze_head c s : ∃ t, squeeze_hyphens (c :: s) = c :: t.
Proof.
  revert c. induction s as [|d s IH]; intros c; [by exists []|].
  cbn [squeeze_hyphens].
  destruct (Ascii.eqb c "-" && Ascii.eqb d "-") eqn:E.
  - apply andb_true_iff in E as [->%Ascii.eqb_eq ->%Ascii.eqb_eq]. apply IH.
  - by eexists.
Qed.

Lemma squeeze_no_double s : no_double_hyphen (squeeze_hyphens s) = true.
Proof.
  induction s as [|c s IH]; [done|].
  destruct s as [|d s]; [done|].
  cbn [squeeze_hyphens]. cbn [squeeze_hyphens] in IH.
  destruct (Ascii.eqb c "-" && Ascii.eqb d "-") eqn:E; [done|].
  destruct (squeeze_head d s) as [t Ht]. cbn [squeeze_hyphens] in Ht.
  rewrite Ht in IH |- *.
  change (no_double_hyphen (c :: d :: t))
    with (negb (Ascii.eqb c "-" && Ascii.eqb d "-")
          && no_double_hyphen (d :: t)).
  by rewrite E, IH.
Qed.

Lemma squeeze_app a u :
  forallb (λ x, negb (Ascii.eqb x "-")) a = true →
  squeeze_hyphens (a ++ u) = a ++ squeeze_hyphens u.
Proof.
  induction a as [|c a IH]; [done|].
  cbn [forallb]. intros [Hc Ha]%andb_true_iff. apply negb_true_iff in Hc.
  cbn [app squeeze_hyphens]. rewrite Hc. cbn [andb].
  rewrite <-(IH Ha). destruct (a ++ u) as [|d s] eqn:E; [|done].
  by apply app_eq_nil in E as [-> ->].
Qed.

Lemma no_double_app a b :
  forallb (λ x, negb (Ascii.eqb x "-")) a = true →
  no_double_hyphen b = true → no_double_hyphen (a ++ b) = true.
Proof.
  intros Ha Hb. induction a as [|c a IH]; [done|].
  cbn [forallb] in Ha. apply andb_true_iff in Ha as [Hc Ha].
  apply negb_true_iff in Hc. cbn [app]. specialize (IH Ha).
  destruct (a ++ b) as [|d s] eqn:E; [done|].
  change (no_double_hyphen (c :: d :: s))
    with (negb (Ascii.eqb c "-" && Ascii.eqb d "-")
          && no_double_hyphen (d :: s)).
  by rewrite Hc, IH.
Qed.

Lemma double_hyphen_found a b :
  no_double_hyphen (a ++ "-" :: "-" :: b)%char = false.
Proof.
  induction a as [|c a IH]; [done|].
  cbn [app]. destruct (a ++ "-" :: "-" :: b)%char as [|d s] eqn:E.
  - by destruct a.
  - change (no_double_hyphen (c :: d :: s))
      with (negb (Ascii.eqb c "-" && Ascii.eqb d "-")
            && no_double_hyphen (d :: s)).
    rewrite IH. apply andb_false_r.
Qed.

Lemma no_double_contains s :
  no_double_hyphen s = true → contains (txt "--") s = false.
Proof.
  intros H. destruct (contains (txt "--") s) eqn:E; [|done].
  apply contains_spec in E as (a & b & ->).
  change (txt "--" ++ b) with ("-" :: "-" :: b)%char in H.
  by rewrite (double_hyphen_found a b) in H.
Qed.

Lemma no_double_prefix a b :
  no_double_hyphen (a ++ b) = true → no_double_hyphen a = true.
Proof.
  induction a as [|c a IH]; [done|].
  destruct a as [|d a]; [done|]. cbn [app].
  change (no_double_hyphen (c :: d :: a ++ b))
    with (negb (Ascii.eqb c "-" && Ascii.eqb d "-")
          && no_double_hyphen ((d :: a) ++ b)).
  change (no_double_hyphen (c :: d :: a))
    with (negb (Ascii.eqb c "-" && Ascii.eqb d "-")
          && no_double_hyphen (d :: a)).
  intros [-> H]%andb_true_iff. by apply IH.
Qed.

Lemma lstrip_char_suffix d s : ∃ w, s = w ++ lstrip_char d s.
Proof.
  induction s as [|c s [w IH]]; [by exists []|].
  cbn [lstrip_char]. destruct (Ascii.eqb c d); [|by exists []].
  exists (c :: w). cbn [app]. by rewrite <-IH.
Qed.

Lemma lstrip_char_head d s c t :
  lstrip_char d s = c :: t → Ascii.eqb c d = false.
Proof.
  induction s as [|x s IH]; [done|].
  cbn [lstrip_char]. destruct (Ascii.eqb x d) eqn:E; [done|].
  by intros [= <- _].
Qed.

Lemma lstrip_char_app d a b :
  lstrip_char d a ≠ [] → lstrip_char d (a ++ b) = lstrip_char d a ++ b.
Proof.
  induction a as [|c a IH]; [done|].
  cbn [app lstrip_char]. destruct (Ascii.eqb c d); [apply IH|done].
Qed.

Lemma lstrip_char_all d a b :
  lstrip_char d a = [] → lstrip_char d (a ++ b) = lstrip_char d b.
Proof.
  induction a as [|c a IH]; [done|].
  cbn [app lstrip_char]. destruct (Ascii.eqb c d); [apply IH|done].
Qed.

Lemma lstrip_char_keep d c s :
  Ascii.eqb c d = false → lstrip_char d (c :: s) = c :: s.
Proof. intros H. cbn [lstrip_char]. by rewrite H. Qed.

(** The category comes through the slug as it is. *)
Lemma category_value_slug c :
  let v := RefinementCategory_value c in
  lower v = v ∧ filter (λ x, is_slug_char x = true) v = v
  ∧ forallb (λ x, negb (Ascii.eqb x "-")) v = true
  ∧ forallb is_slug_char v = true
  ∧ ∃ x v' y, v = x :: v' ∧ last v = Some y ∧ Ascii.eqb y "-" = false
              ∧ Ascii.eqb x "-" = false.
Proof.
  destruct c; (split; [done|]); (split; [done|]); (split; [done|]);
    (split; [done|]); by eexists _, _, _.
Qed.

(** [strip("-")] on a text that begins with the category. *)
Lemma strip_char_category c v :
  ∃ rest, strip_char "-" (RefinementCategory_value c ++ v)
          = RefinementCategory_value c ++ rest
          ∧ (∃ w, v = rest ++ w)
          ∧ last (RefinementCategory_value c ++ rest) ≠ Some "-"%char.
Proof.
  destruct (category_value_slug c)
    as (_ & _ & _ & _ & x & v' & y & Hv & Hlast & Hy & Hx).
  set (cat := RefinementCategory_value c) in *.
  unfold strip_char.
  assert (lstrip_char "-" (cat ++ v) = cat ++ v) as ->.
  { rewrite Hv. cbn [app]. by apply lstrip_char_keep. }
  rewrite rev_app_distr.
  assert (∃ cr, rev cat = y :: cr) as [cr Hcr].
  { apply last_Some in Hlast as [l' ->]. rewrite rev_app_distr. by eexists. }
  destruct (lstrip_char_suffix "-" (rev v)) as [w Hw].
  destruct (lstrip_char "-" (rev v)) as [|z t] eqn:E.
  - exists []. rewrite app_nil_r in Hw |- *.
    assert (lstrip_char "-" (rev v ++ rev cat) = rev cat) as ->.
    { rewrite (lstrip_char_all _ _ _ E), Hcr. by apply lstrip_char_keep. }
    rewrite rev_involutive. split; [done|]. split; [by exists v|].
    rewrite Hlast. intros [= ->]. done.
  - rewrite lstrip_char_app by (by rewrite E). rewrite E.
    exists (rev (z :: t)).
    rewrite rev_app_distr, rev_involutive. split; [done|]. split.
    + exists (rev w). rewrite <-rev_app_distr, <-Hw. by rewrite rev_involutive.
    + cbn [rev]. rewrite app_assoc, last_snoc. intros [= ->].
      by apply lstrip_char_head in E.
Qed.

Lemma forallb_app_l {A} (f : A → bool) a b :
  forallb f (a ++ b) = true → forallb f a = true.
Proof. rewrite forallb_app. by intros [? _]%andb_true_iff. Qed.

Lemma forallb_filter_slug s :
  forallb is_slug_char (filter (λ x, is_slug_char x = true) s) = true.
Proof.
  induction s as [|c s IH]; [done|]. rewrite filter_cons.
  destruct (decide (is_slug_char c = true)) as [E|E]; [|done].
  cbn [forallb]. by rewrite E, IH.
Qed.

(** The shape of a generated name. *)
Lemma generated_name_shape (r : Refinement.t) :
  let name := _generate_pattern_name r in
  (∃ rest, name = RefinementCategory_value (Refinement.category r) ++ rest)
  ∧ forallb is_slug_char name = true
  ∧ contains (txt "--") name = false
  ∧ last name ≠ Some "-"%char.
Proof.
  intros name. unfold name, _generate_pattern_name. cbv zeta.
  set (cat := RefinementCategory_value (Refinement.category r)).
  set (ws := take 3 _).
  set (words := (if bool_decide (Refinement.target_section r = [])
                 then [cat] else [cat] ++ take 2 _) ++ ws).
  assert (∃ l, take 5 words = cat :: l) as [l ->].
  { unfold words. destruct (bool_decide _); by eexists. }
  rewrite join_cons.
  set (t := concat _).
  destruct (category_value_slug (Refinement.category r))
    as (Hlow & Hfil & Hnh & Hslug & _). fold cat in Hlow, Hfil, Hnh, Hslug.
  unfold lower. rewrite map_app. fold (lower cat) (lower t).
  rewrite Hlow, filter_app, Hfil, (squeeze_app _ _ Hnh).
  set (v := squeeze_hyphens _).
  destruct (strip_char_category (Refinement.category r) v)
    as (rest & Hs & [w Hw] & Hlast). fold cat in Hs, Hlast. rewrite Hs.
  assert (cat ++ rest ≠ []) as Hne.
  { intros [Hc _]%app_eq_nil. unfold cat in Hc.
    by destruct (Refinement.category r). }
  rewrite bool_decide_eq_false_2 by done.
  split; [by exists rest|]. split; [|split; [|done]].
  - rewrite forallb_app, Hslug. cbn [andb].
    apply (forallb_app_l _ rest w). rewrite <-Hw. unfold v.
    apply squeeze_hyphens_forallb, forallb_filter_slug.
  - apply no_double_contains, no_double_app; [done|].
    apply (no_double_prefix rest w). rewrite <-Hw. apply squeeze_no_double.
Qed.

(** X15.  The name [_generate_pattern_name] gives begins with the value
    of the category, so it is never empty and the fallback
    [pattern-<skill>] is never taken; it is made of lower-case letters,
    digits and hyphens, holds no two hyphens in a row and does not end
    with a hyphen. *)
Theorem generated_name_is_slug (r : Refinement.t) :
  let name := _generate_pattern_name r in
  (∃ rest, name = RefinementCategory_value (Refinement.category r) ++ rest)
  ∧ forallb is_slug_char name = true
  ∧ contains (txt "--") name = false
  ∧ last name ≠ Some "-"%char.
Proof. apply generated_name_shape. Qed.

End Matching.

Section Entries.
Context {library : Datetime}.

(* ===================================================================== *)
(** ** Documents with no entry, and entries with no field *)
(* ===================================================================== *)

Lemma re_findall_none {A} (m : text → option (A * text)) s :
  (∀ a s', s = a ++ s' → m s' = None) → re_findall_from m 0 s = [].
Proof.
  induction s as [|c s IH]; intros H; [done|].
  cbn [re_findall_from]. rewrite (H [] (c :: s) eq_refl).
  apply IH. intros a s' ->. by apply (H (c :: a)).
Qed.

Lemma not_contains_guarded {A} k (m : text → option A) s a s' :
  guarded k m → contains k s = false → s = a ++ s' → m s' = None.
Proof.
  intros Hg Hc ->. apply Hg.
  destruct (drop_prefix k s') as [r|] eqn:E; [|done].
  apply drop_prefix_Some in E as ->.
  unfold contains in Hc. destruct (find_sub _ _) eqn:Hf; [done|].
  by apply (find_sub_None _ _ a r) in Hf.
Qed.

(** X16.  A patterns document that is missing, or that holds no heading
    [### ], holds no pattern: [_load_patterns] and [get_ready_patterns]
    return the empty list, [get_pattern_by_id] finds nothing, and
    [mark_generalized] and [dismiss_pattern] return False and change
    nothing. *)
Theorem document_without_heading_is_empty (now : datetime) (fs : Files) :
  match patterns_file fs with
  | Some content => contains (txt "### ") content
  | None => false
  end = false →
  _load_patterns now fs = []
  ∧ get_ready_patterns now fs = []
  ∧ ∀ pattern_id reason,
      get_pattern_by_id now pattern_id fs = None
      ∧ mark_generalized now pattern_id fs = (false, fs)
      ∧ dismiss_pattern now pattern_id reason fs = (false, fs).
Proof.
  intros H.
  assert (_load_patterns now fs = []) as Hload.
  { unfold _load_patterns. destruct (patterns_file fs) as [content|]; [|done].
    unfold load_text, re_findall. rewrite re_findall_none; [done|].
    intros a s'. by apply (not_contains_guarded _ _ _ _ _ pattern_block_guarded). }
  split; [done|]. split; [unfold get_ready_patterns; by rewrite Hload|].
  intros pattern_id reason.
  unfold get_pattern_by_id, mark_generalized, dismiss_pattern.
  by rewrite Hload.
Qed.

Lemma never_stars k j :
  startswith (txt "**") k = true → never (txt "**") j = true →
  never k j = true.
Proof.
  unfold startswith.
  destruct (drop_prefix (txt "**") k) as [k'|] eqn:E; [|done].
  apply drop_prefix_Some in E as ->. intros _. apply never_extend.
Qed.

Lemma count_at_guarded : guarded key_count count_at.
Proof. intros s H. unfold count_at. unfold key_count in H. by rewrite H. Qed.

Lemma skills_at_guarded : guarded key_skills skills_at.
Proof.
  intros s H. unfold skills_at. unfold key_skills in H. by rewrite H.
Qed.

Lemma description_at_guarded : guarded key_description description_at.
Proof.
  intros s H. unfold description_at. unfold key_description in H.
  by rewrite H.
Qed.

Lemma line_after_guarded key : guarded key (line_after key).
Proof. intros s H. unfold line_after. by rewrite H. Qed.

Lemma re_search_without_stars {A} k (m : text → option A) block :
  guarded k m → startswith (txt "**") k = true → k ≠ [] →
  never (txt "**") block = true → re_search m block = None.
Proof.
  intros Hg Hk Hne Hb. apply (re_search_end k); [done..|].
  by apply never_stars.
Qed.

(** The class reads each of its characters. *)
Lemma read_icon_class c r : c ∈ icon_class → read_icon (c ++ r) = Some (c, r).
Proof.
  assert (Forall (λ c, ∀ r, read_icon (c ++ r) = Some (c, r)) icon_class)
    as H by (vm_compute; repeat constructor).
  rewrite Forall_forall in H. intros Hc. by apply H.
Qed.

(** X17.  An entry whose heading carries one character of the class and
    that holds no bold key is read with the defaults of [_load_patterns]:
    status TRACKING whatever the character, count 1, no skills,
    Refinement ids or projects, the name as its description, and the time
    of the call as first and last seen. *)
Theorem entry_without_fields_loads_defaults (now : datetime)
    (c pre d name block : text) :
  c ∈ icon_class →
  never (txt "### ") pre = true →
  forallb isdigit d = true → d ≠ [] →
  name ≠ [] → without nl name = true →
  block ≠ [] → never (txt "### ") block = true →
  never (txt "**") block = true →
  load_text now
    (pre ++ txt "### " ++ c ++ txt " PATTERN-" ++ d ++ txt ": "
     ++ name ++ [nl] ++ block)
  = [ Pattern.Build (txt "PATTERN-" ++ d) (strip name) name [] [] [] 1
        TRACKING now now None None ].
Proof.
  intros Hc Hpre Hd Hdne Hname Hnl Hblock Hhead Hstars.
  unfold load_text, re_findall.
  rewrite (re_findall_never _ _ _ _ pattern_block_guarded Hpre).
  destruct name as [|x name]; [done|]. destruct block as [|b block]; [done|].
  cbn [without forallb] in Hnl. apply andb_true_iff in Hnl as [_ Hnl].
  assert (pattern_block
            (txt "### " ++ c ++ txt " PATTERN-" ++ d ++ txt ": "
             ++ (x :: name) ++ [nl] ++ b :: block)
          = Some ((c, txt "PATTERN-" ++ d, x :: name, b :: block), []))
    as Hblk.
  { unfold pattern_block. rewrite drop_prefix_app, read_icon_class by done.
    rewrite drop_prefix_app.
    rewrite (span_app isdigit d (txt ": " ++ (x :: name) ++ [nl] ++ b :: block))
      by done.
    destruct d as [|d0 d]; [done|]. rewrite drop_prefix_app. cbn [app].
    rewrite (find_sub_first nl name (b :: block) Hnl).
    apply never_cons_inv in Hhead as [_ Hhead].
    pose proof (until_header_never block [] Hhead) as Hu.
    cbn [until_header fst snd] in Hu.
    rewrite !app_nil_r in Hu. by rewrite Hu. }
  set (rest := txt "## " ++ c ++ txt " PATTERN-" ++ d ++ txt ": "
               ++ (x :: name) ++ [nl] ++ b :: block).
  change (txt "### " ++ c ++ txt " PATTERN-" ++ d ++ txt ": "
          ++ (x :: name) ++ [nl] ++ b :: block)
    with ("#"%char :: rest) in Hblk |- *.
  rewrite <-(app_nil_r rest) in Hblk |- *.
  rewrite (re_findall_hit _ _ _ _ _ Hblk). cbn [map re_findall_from].
  f_equal. unfold parse_pattern. rewrite (class_status c Hc).
  rewrite (re_search_without_stars key_count count_at),
    (re_search_without_stars key_skills skills_at),
    (re_search_without_stars key_refs (line_after key_refs)),
    (re_search_without_stars key_projects (line_after key_projects)),
    (re_search_without_stars key_description description_at),
    (re_search_without_stars key_first (line_after key_first)),
    (re_search_without_stars key_last (line_after key_last));
    first [ done | exact count_at_guarded | exact skills_at_guarded
          | exact description_at_guarded | apply line_after_guarded
          | by vm_compute ].
Qed.

End Entries.

Section Lifecycle.
Context {library : Datetime}.

(* ===================================================================== *)
(** ** The operations, step by step *)
(* ===================================================================== *)

Lemma pad3_digits n :
  (0 ≤ n)%Z → forallb isdigit (pad3 n) = true ∧ pad3 n ≠ [].
Proof.
  intros Hn. destruct (str_int_digits n Hn) as [Hd Hne].
  unfold pad3. split.
  - rewrite forallb_app, Hd, andb_true_r.
    induction (3 - length (str_int n))%nat as [|k IH]; [done|]. done.
  - by destruct (repeat _ _), (str_int n).
Qed.

Lemma foldr_max_nonneg x l : (0 ≤ x)%Z → (0 ≤ foldr Z.max x l)%Z.
Proof. intros Hx. induction l as [|y l IH]; simpl; lia. Qed.

Lemma get_pattern_id_ok fs : is_pattern_id (get_pattern_id fs) = true.
Proof.
  unfold get_pattern_id.
  destruct (patterns_file fs) as [content|]; [|done].
  destruct (re_findall id_at content) as [|m ms]; [done|].
  unfold is_pattern_id. rewrite drop_prefix_app.
  destruct (pad3_digits (foldr Z.max (int_of m) (map int_of ms) + 1))
    as [Hd Hn].
  { pose proof (foldr_max_nonneg (int_of m) (map int_of ms)
                  (int_of_nonneg m)). lia. }
  rewrite Hd. by rewrite bool_decide_eq_false_2.
Qed.

Lemma forallb_take {A} (f : A → bool) n l :
  forallb f l = true → forallb f (take n l) = true.
Proof.
  revert n; induction l as [|x l IH]; intros [|n]; simpl; try done.
  intros [-> Hl]%andb_true_iff. by apply IH.
Qed.

Lemma process_patterns_file now r fs :
  patterns_file (process_new_refinement now r fs).2
  = Some (_save_patterns now (processed_patterns now r fs)).
Proof.
  unfold process_new_refinement.
  destruct (match_or_create now r fs) as [found pattern].
  by destruct (check_threshold now pattern fs).
Qed.

Lemma check_all_patterns_file now fs :
  patterns_file (check_all_patterns now fs).2
  = Some (_save_patterns now (rechecked_patterns now fs)).
Proof.
  unfold check_all_patterns, rechecked_patterns.
  by destruct (check_loop now (_load_patterns now fs) fs) as [[? ?] ?].
Qed.

Lemma remove_from_queue_patterns_file pattern_id fs :
  patterns_file (_remove_from_queue pattern_id fs) = patterns_file fs.
Proof. unfold _remove_from_queue. by destruct (queue_file fs). Qed.

Lemma check_loop_patterns now l fs :
  (check_loop now l fs).1.1 = map (λ p, (recheck p).1) l.
Proof.
  revert fs; induction l as [|p l IH]; intros fs; [done|].
  cbn [check_loop map]. destruct (recheck p) as [p' promoted].
  specialize (IH (if promoted then _add_to_generalization_queue now p' fs
                  else fs)).
  destruct (check_loop now l _) as [[rest ready] fs']. simpl in *.
  by rewrite IH.
Qed.



Lemma process_result now r fs :
  (process_new_refinement now r fs).1
  = (check_threshold now (match_or_create now r fs).2 fs).1.
Proof.
  unfold process_new_refinement.
  destruct (match_or_create now r fs) as [found p0]. cbn [snd].
  by destruct (check_threshold now p0 fs).
Qed.

Lemma check_threshold_lists now p fs :
  let p' := (check_threshold now p fs).1 in
  Pattern.affected_skills p' = Pattern.affected_skills p
  ∧ Pattern.refinement_ids p' = Pattern.refinement_ids p
  ∧ Pattern.projects p' = Pattern.projects p
  ∧ Pattern.last_seen p' = Pattern.last_seen p.
Proof.
  unfold check_threshold. destruct (_ <=? _)%Z; [|done]. by destruct (negb _).
Qed.

Lemma add_new_elem x l : x ∈ add_new x l.
Proof.
  unfold add_new. case_bool_decide; [done|].
  apply elem_of_app. right. apply list_elem_of_here.
Qed.

(* ===================================================================== *)
(** ** The states the operations reach *)
(* ===================================================================== *)

Lemma slug_char_hash :
  ∀ x, is_slug_char x = true → negb (Ascii.eqb "#" x) = true.
Proof. by_ascii_cases. Qed.

Lemma pattern_id_without_hash s :
  is_pattern_id s = true → without "#" s = true.
Proof.
  intros (d & -> & Hd & _)%is_pattern_id_inv.
  rewrite without_app, (digits_without_hash d) by done. reflexivity.
Qed.

Lemma generated_name_without_hash r :
  without "#" (_generate_pattern_name r) = true.
Proof.
  destruct (generated_name_shape r) as (_ & H & _).
  revert H. apply forallb_sub, slug_char_hash.
Qed.

(** A pattern created from a Refinement without [#] holds none. *)
Lemma created_hash_free now fs r :
  without "#" now = true → hash_free_refinement r = true →
  hash_free (_create_pattern now fs r) = true.
Proof.
  intros Hnow. unfold hash_free_refinement. rewrite !andb_true_iff.
  intros [[[[Hid Hskill] Hsection] Hexpected] Hproject].
  unfold hash_free, _create_pattern, all_without.
  cbn [Pattern.id Pattern.name Pattern.description Pattern.affected_skills
       Pattern.refinement_ids Pattern.projects Pattern.first_seen
       Pattern.last_seen].
  rewrite (pattern_id_without_hash _ (get_pattern_id_ok fs)).
  rewrite generated_name_without_hash.
  rewrite !without_app, Hsection.
  unfold without at 2. rewrite forallb_take by done.
  cbn [forallb]. rewrite Hskill, Hid, Hnow.
  by case_bool_decide; cbn [forallb]; rewrite ?Hproject.
Qed.

Lemma save_patterns_file now l fs :
  patterns_file (save now l fs) = Some (_save_patterns now l).
Proof. done. Qed.

(** After a save of patterns without [#], [_load_patterns] reads
    nothing. *)
Lemma saved_reads_nothing now l fs :
  without "#" now = true → forallb hash_free l = true →
  reads_nothing (save now l fs).
Proof.
  intros Hnow Hl now'. unfold _load_patterns.
  rewrite save_patterns_file. by apply saved_not_read.
Qed.

(** With no pattern read, [process_new_refinement] creates a pattern and
    saves it alone. *)
Lemma process_on_nothing now r fs :
  _load_patterns now fs = [] →
  process_new_refinement now r fs
  = (_create_pattern now fs r, save now [_create_pattern now fs r] fs).
Proof.
  intros Hload.
  unfold process_new_refinement, processed_patterns, match_or_create.
  by rewrite Hload.
Qed.

Lemma check_all_on_nothing now fs :
  _load_patterns now fs = [] →
  check_all_patterns now fs = ([], save now [] fs).
Proof. intros Hload. unfold check_all_patterns. by rewrite Hload. Qed.

Lemma find_on_nothing now pattern_id reason fs :
  _load_patterns now fs = [] →
  get_pattern_by_id now pattern_id fs = None
  ∧ mark_generalized now pattern_id fs = (false, fs)
  ∧ dismiss_pattern now pattern_id reason fs = (false, fs).
Proof.
  intros Hload. unfold get_pattern_by_id, mark_generalized, dismiss_pattern.
  by rewrite Hload.
Qed.

Lemma template_not_read now now' :
  without "#" now = true →
  load_text now' (_get_aggregated_patterns_template now) = [].
Proof.
  intros Hnow. unfold load_text, re_findall.
  set (a := txt "# Aggregated Refinement Patterns"
            ++ lines_text
                 [ txt "";
                   txt "> Auto-updated when pattern count >= "
                     ++ str_int GENERALIZATION_THRESHOLD ]
            ++ nl :: txt "> Last aggregation: ").
  set (b := lines_text
              [ txt "";
                txt "## Ready for Generalization (count >= "
                  ++ str_int GENERALIZATION_THRESHOLD ++ txt ")";
                txt "";
                txt "<!-- Patterns ready for user-scope application -->";
                txt "";
                txt "## Tracking (count = 1)";
                txt "";
                txt "<!-- Patterns being tracked for future generalization -->";
                txt "";
                txt "## Archived (Generalized)";
                txt "";
                txt "<!-- Patterns already applied to user-scope skills -->";
                txt "" ]).
  assert (_get_aggregated_patterns_template now = (a ++ now ++ b) ++ [])
    as -> by (unfold _get_aggregated_patterns_template;
              rewrite join_lines, app_nil_r; reflexivity).
  rewrite (re_findall_never (txt "### ")); [done|apply pattern_block_guarded|].
  apply never_app; [done|]. apply never_app; [|done].
  by apply never_without.
Qed.

Lemma empty_store_reads_nothing now :
  without "#" now = true → reads_nothing (empty_store now).
Proof. intros Hnow now'. by apply template_not_read. Qed.

Lemma run_op_reads_nothing o fs :
  reads_nothing fs → wf_op o = true → reads_nothing (run_op o fs).
Proof.
  intros Hfs Ho. destruct o as [now r|now|now pid|now pid reason];
    cbn [run_op wf_op] in *.
  - apply andb_true_iff in Ho as [Hnow%is_time_without_hash Hr].
    rewrite process_on_nothing by apply Hfs. cbn [snd].
    apply saved_reads_nothing; [done|]. cbn [forallb].
    by rewrite created_hash_free.
  - apply is_time_without_hash in Ho.
    rewrite check_all_on_nothing by apply Hfs. cbn [snd].
    by apply saved_reads_nothing.
  - by destruct (find_on_nothing now pid [] fs (Hfs now)) as (_ & -> & _).
  - by destruct (find_on_nothing now pid reason fs (Hfs now)) as (_ & _ & ->).
Qed.

(** In every state the operations reach from the empty store,
    [_load_patterns] reads no pattern. *)
Lemma reachable_reads_nothing fs : reachable fs → reads_nothing fs.
Proof.
  induction 1 as [now Hnow|o fs _ IH Ho].
  - by apply empty_store_reads_nothing, is_time_without_hash.
  - by apply run_op_reads_nothing.
Qed.




(** X2.  In every state the operations reach from the empty store, on
    Refinements whose texts hold no [#], the store reads as empty:
    [_load_patterns] and [get_ready_patterns] return no pattern;
    [check_all_patterns] returns none and writes the document of the
    empty list; [process_new_refinement] creates a pattern whatever the
    Refinement and writes the document of that pattern alone; and
    [get_pattern_by_id], [mark_generalized] and [dismiss_pattern] find no
    id. *)
Theorem reachable_store_reads_nothing (fs : Files) :
  reachable fs →
  ∀ now,
    _load_patterns now fs = []
    ∧ get_ready_patterns now fs = []
    ∧ check_all_patterns now fs = ([], save now [] fs)
    ∧ (∀ r, process_new_refinement now r fs
            = (_create_pattern now fs r,
               save now [_create_pattern now fs r] fs))
    ∧ ∀ pattern_id reason,
        get_pattern_by_id now pattern_id fs = None
        ∧ mark_generalized now pattern_id fs = (false, fs)
        ∧ dismiss_pattern now pattern_id reason fs = (false, fs).
Proof.
  intros Hreach now.
  pose proof (reachable_reads_nothing fs Hreach now) as Hload.
  split; [done|]. split; [unfold get_ready_patterns; by rewrite Hload|].
  split; [by rewrite check_all_on_nothing|].
  split; [intros r; by rewrite process_on_nothing|].
  intros pattern_id reason. by apply find_on_nothing.
Qed.

End Lifecycle.

Section Laws.
Context {library : Datetime}.

(* ===================================================================== *)
(** ** The threshold *)
(* ===================================================================== *)

Lemma matched_not_terminal r patterns i p :
  _find_matching_pattern r patterns = Some (i, p) →
  patterns !! i = Some p ∧ is_terminal (Pattern.status p) = false.
Proof.
  rewrite find_matching_list_find.
  intros (Hi & [Hterm _] & _)%list_find_Some. done.
Qed.



Lemma rechecked_map now fs :
  rechecked_patterns now fs
  = map (λ p, (recheck p).1) (_load_patterns now fs).
Proof. unfold rechecked_patterns. apply check_loop_patterns. Qed.


(* ===================================================================== *)
(** ** The patterns document read back *)
(* ===================================================================== *)

Lemma handwritten_load now pattern_id :
  pattern_id = "PATTERN-001" ∨ pattern_id = "PATTERN-100" →
  load_text now (handwritten_document pattern_id)
  = [handwritten_pattern pattern_id now].
Proof. by intros [->| ->]; vm_compute. Qed.

Lemma handwritten_hash_free now pattern_id :
  pattern_id = "PATTERN-001" ∨ pattern_id = "PATTERN-100" →
  without "#" now = true →
  hash_free (handwritten_pattern pattern_id now) = true.
Proof.
  intros [->| ->] Hnow; unfold hash_free;
    cbn [handwritten_pattern Pattern.id Pattern.name Pattern.description
         Pattern.affected_skills Pattern.refinement_ids Pattern.projects
         Pattern.first_seen Pattern.last_seen]; by rewrite Hnow.
Qed.

(** C3.  [_load_patterns] reads nothing of a document [_save_patterns]
    wrote: for every list of Patterns whose texts hold no [#], whatever
    their statuses, the document saved is read as the empty list.  The
    block expression asks for one character between [### ] and the id,
    and [_format_pattern] writes an icon of three or four.  Whatever the
    document, a Pattern read from it is TRACKING.  So the Pattern read
    from the hand-written document is lost on the way through a save. *)
Theorem saved_patterns_are_not_read :
  (∀ now now' patterns,
     is_time now' = true → forallb hash_free patterns = true →
     load_text now (_save_patterns now' patterns) = [])
  ∧ (∀ now content p,
       p ∈ load_text now content → Pattern.status p = TRACKING)
  ∧ (load_text sample_now (handwritten_document "PATTERN-001")
     = [handwritten_pattern "PATTERN-001" sample_now]
     ∧ load_text sample_now
         (_save_patterns sample_now
            (load_text sample_now (handwritten_document "PATTERN-001")))
       = []).
Proof.
  split; [|split; [|split]].
  - intros now now' patterns Hnow Hp.
    by apply saved_not_read; [apply is_time_without_hash|].
  - intros now content p Hp. by apply loaded_fields in Hp as (? & _).
  - apply handwritten_load. by left.
  - rewrite handwritten_load by (by left).
    apply saved_not_read; [done|]. cbn [forallb].
    by rewrite handwritten_hash_free by (done || by left).
Qed.

(* ===================================================================== *)
(** ** The queue and the patterns READY *)
(* ===================================================================== *)

Lemma never_ready now fs : get_ready_patterns now fs = [].
Proof. unfold get_ready_patterns. by apply with_status_loaded. Qed.

(** C4.  [get_ready_patterns] returns no pattern in any state: no Pattern
    is read as READY.  Processed on the hand-written store, whose queue
    holds no entry, the Refinement of Scenario A matches PATTERN-001 and
    takes it to count 2: the call returns it READY and enters it in the
    queue, and writes a patterns document of which nothing is read, so
    that afterwards the queue lists PATTERN-001 and the store holds no
    READY pattern.  With PATTERN-1000 in the queue, PATTERN-100 becomes
    READY and gets no entry: the test of [_add_to_generalization_queue]
    finds its id inside the id of the other. *)
Theorem queue_diverges_from_ready_patterns :
  (∀ now fs, get_ready_patterns now fs = [])
  ∧ (let res := process_new_refinement sample_now sample_r1 handwritten_store in
     (ready_ids sample_now handwritten_store = []
      ∧ queue_ids handwritten_store = [])
     ∧ Pattern.id res.1 = txt "PATTERN-001"
     ∧ Pattern.status res.1 = READY
     ∧ queue_ids res.2 = [txt "PATTERN-001"]
     ∧ ready_ids sample_now res.2 = []
     ∧ _load_patterns sample_now res.2 = [])
  ∧ (let res :=
       process_new_refinement sample_now sample_r1 handwritten_store_hundred in
     Pattern.id res.1 = txt "PATTERN-100"
     ∧ Pattern.status res.1 = READY
     ∧ queue_ids res.2 = [txt "PATTERN-1000"]).
Proof.
  split; [apply never_ready|]. split; vm_compute; by repeat split.
Qed.

(* ===================================================================== *)
(** ** [check_all_patterns], twice *)
(* ===================================================================== *)

Lemma recheck_hash_free p : hash_free (recheck p).1 = hash_free p.
Proof.
  rewrite (recheck_cases p).
  by destruct (_ <=? _)%Z; destruct (Pattern.status p).
Qed.

Lemma rechecked_hash_free l :
  forallb hash_free l = true →
  forallb hash_free (map (λ p, (recheck p).1) l) = true.
Proof.
  induction l as [|p l IH]; [done|]. cbn [map forallb].
  intros [Hp Hl]%andb_true_iff. by rewrite recheck_hash_free, Hp, IH.
Qed.

Lemma check_all_twice now1 now2 fs :
  is_time now1 = true →
  forallb hash_free (_load_patterns now1 fs) = true →
  let fs1 := (check_all_patterns now1 fs).2 in
  (∀ now, _load_patterns now fs1 = [])
  ∧ patterns_file (check_all_patterns now2 fs1).2
    = Some (_save_patterns now2 []).
Proof.
  intros Hnow Hl fs1.
  assert (∀ now, _load_patterns now fs1 = []) as Hload.
  { intros now. unfold _load_patterns, fs1.
    rewrite check_all_patterns_file, rechecked_map.
    apply saved_not_read; [by apply is_time_without_hash|].
    by apply rechecked_hash_free. }
  split; [done|]. by rewrite check_all_on_nothing.
Qed.

(** C7.  On the hand-written store a first [check_all_patterns] reads
    PATTERN-001 and writes it back; a second call reads nothing of the
    document the first one wrote and writes a document without entries:
    PATTERN-001 is in the patterns document after the first call and gone
    after the second.  In general, after [check_all_patterns] on patterns
    whose texts hold no [#], the patterns document is read as empty, and
    a second call writes the document of the empty list. *)
Theorem second_check_all_erases_patterns :
  (let fs1 := (check_all_patterns sample_now handwritten_store).2 in
   let fs2 := (check_all_patterns sample_now fs1).2 in
   _load_patterns sample_now handwritten_store
   = [handwritten_pattern "PATTERN-001" sample_now]
   ∧ patterns_file fs1
     = Some (_save_patterns sample_now
               [handwritten_pattern "PATTERN-001" sample_now])
   ∧ patterns_file fs2 = Some (_save_patterns sample_now [])
   ∧ contains (txt "PATTERN-001") (default [] (patterns_file fs1)) = true
   ∧ contains (txt "PATTERN-001") (default [] (patterns_file fs2)) = false
   ∧ fs2 ≠ fs1)
  ∧ (∀ now1 now2 fs,
       is_time now1 = true →
       forallb hash_free (_load_patterns now1 fs) = true →
       let fs1 := (check_all_patterns now1 fs).2 in
       (∀ now, _load_patterns now fs1 = [])
       ∧ patterns_file (check_all_patterns now2 fs1).2
         = Some (_save_patterns now2 [])).
Proof.
  split; [|apply check_all_twice].
  assert (contains (txt "PATTERN-001")
            (default []
               (patterns_file (check_all_patterns sample_now
                                 handwritten_store).2)) = true) as H1
    by (by vm_compute).
  assert (contains (txt "PATTERN-001")
            (default []
               (patterns_file
                  (check_all_patterns sample_now
                     (check_all_patterns sample_now handwritten_store).2).2))
          = false) as H2 by (by vm_compute).
  cbv zeta. split; [by vm_compute|]. split; [by vm_compute|].
  split; [by vm_compute|]. split; [done|]. split; [done|].
  intros Heq. rewrite Heq, H1 in H2. done.
Qed.

(* ===================================================================== *)
(** ** Removing an entry of the queue *)
(* ===================================================================== *)

(** C9.  After the Refinement of Scenario A is processed on the
    hand-written store, the queue is the template with the entry of
    PATTERN-001 under its first heading.  Removing PATTERN-001 deletes the
    entry and with it everything that follows: the comment, the rule and
    the section "Pending More Data" of the template. *)
Theorem removal_deletes_rest_of_document :
  let res := process_new_refinement sample_now sample_r1 handwritten_store in
  queue_file res.2
  = Some (queue_head ++ _format_queue_entry res.1 ++ queue_tail)
  ∧ queue_tail ≠ []
  ∧ queue_file (_remove_from_queue (Pattern.id res.1) res.2)
    = Some queue_head.
Proof. vm_compute. by repeat split. Qed.

(* ===================================================================== *)
(** ** What a processed Refinement leaves on the pattern *)
(* ===================================================================== *)

(** X8.  Whatever the store, the pattern [process_new_refinement] returns
    records the Refinement: its id among the Refinement ids, its skill
    among the affected skills, its project, when it names one, among the
    projects, and the time of the call as the time last seen.  The
    pattern is in the list the call writes to the patterns document. *)
Theorem processed_refinement_is_recorded (now : datetime)
    (r : Refinement.t) (fs : Files) :
  let res := process_new_refinement now r fs in
  Refinement.id r ∈ Pattern.refinement_ids res.1
  ∧ Refinement.skill r ∈ Pattern.affected_skills res.1
  ∧ (Refinement.project r ≠ [] →
     Refinement.project r ∈ Pattern.projects res.1)
  ∧ Pattern.last_seen res.1 = now
  ∧ res.1 ∈ processed_patterns now r fs
  ∧ patterns_file res.2
    = Some (_save_patterns now (processed_patterns now r fs)).
Proof.
  intros res.
  assert (Refinement.id r ∈ Pattern.refinement_ids res.1
          ∧ Refinement.skill r ∈ Pattern.affected_skills res.1
          ∧ (Refinement.project r ≠ [] →
             Refinement.project r ∈ Pattern.projects res.1)
          ∧ Pattern.last_seen res.1 = now) as (? & ? & ? & ?).
  { unfold res. rewrite process_result.
    destruct (check_threshold_lists now (match_or_create now r fs).2 fs)
      as (-> & -> & -> & ->).
    unfold match_or_create. cbn [snd].
    destruct (_find_matching_pattern _ _) as [[i m]|];
      cbn [_update_pattern _create_pattern Pattern.refinement_ids
           Pattern.affected_skills Pattern.projects Pattern.last_seen].
    + split; [apply add_new_elem|]. split; [apply add_new_elem|].
      split; [|done]. intros Hne. rewrite bool_decide_eq_false_2 by done.
      apply add_new_elem.
    + split; [apply list_elem_of_here|]. split; [apply list_elem_of_here|].
      split; [|done]. intros Hne. rewrite bool_decide_eq_false_2 by done.
      apply list_elem_of_here. }
  do 4 (split; [done|]). split; [|apply process_patterns_file].
  unfold res. rewrite process_result.
  unfold processed_patterns, match_or_create.
  destruct (_find_matching_pattern r (_load_patterns now fs))
    as [[i m]|] eqn:E; cbn [snd].
  - apply matched_not_terminal in E as [Hi _].
    apply list_elem_of_lookup. exists i.
    apply list_lookup_insert_eq. by eapply lookup_lt_Some.
  - apply elem_of_app. right. apply list_elem_of_here.
Qed.

(* ===================================================================== *)
(** ** Marking and dismissing a pattern that is found *)
(* ===================================================================== *)

Lemma forallb_insert {A} (f : A → bool) (l : list A) i x :
  f x = true → forallb f l = true → forallb f (<[i := x]> l) = true.
Proof.
  intros Hx. revert i; induction l as [|y l IH]; intros i; [done|].
  cbn [forallb]. intros [Hy Hl]%andb_true_iff.
  destruct i as [|i]; simpl; [by rewrite Hx, Hl|]. by rewrite Hy, IH.
Qed.

Lemma forallb_lookup {A} (f : A → bool) (l : list A) i x :
  forallb f l = true → l !! i = Some x → f x = true.
Proof.
  intros Hl Hi. rewrite forallb_forall in Hl. apply Hl.
  apply list_elem_of_In. by eapply list_elem_of_lookup_2.
Qed.

Lemma found_by_id now pattern_id fs p :
  get_pattern_by_id now pattern_id fs = Some p →
  ∃ i, list_find (λ p, Pattern.id p = pattern_id) (_load_patterns now fs)
       = Some (i, p)
       ∧ _load_patterns now fs !! i = Some p.
Proof.
  unfold get_pattern_by_id.
  destruct (list_find _ _) as [[i q]|] eqn:E; [|done].
  intros [= <-]. exists i. split; [done|].
  by apply list_find_Some in E as (? & _).
Qed.

(** X6.  When [get_pattern_by_id] finds the id, [mark_generalized]
    returns True and writes the patterns document of the list read, with
    that pattern set to GENERALIZED.  When the texts of the patterns read
    hold no [#], nothing of the document written is read back:
    afterwards [get_pattern_by_id] finds no pattern, the one marked
    included. *)
Theorem mark_generalized_marks (now : datetime) (pattern_id : text)
    (fs : Files) (p : Pattern.t) :
  get_pattern_by_id now pattern_id fs = Some p →
  is_time now = true →
  forallb hash_free (_load_patterns now fs) = true →
  let res := mark_generalized now pattern_id fs in
  res.1 = true
  ∧ (∃ i, _load_patterns now fs !! i = Some p
          ∧ patterns_file res.2
            = Some (_save_patterns now
                      (<[i := Pattern.set_status GENERALIZED p]>
                         (_load_patterns now fs))))
  ∧ ∀ now' id', get_pattern_by_id now' id' res.2 = None.
Proof.
  intros (i & Hfind & Hi)%found_by_id Hnow Hl res.
  assert (res = (true,
                 _remove_from_queue pattern_id
                   (save now (<[i := Pattern.set_status GENERALIZED p]>
                                (_load_patterns now fs)) fs))) as ->.
  { unfold res, mark_generalized. by rewrite Hfind. }
  cbn [fst snd]. split; [done|].
  rewrite remove_from_queue_patterns_file, save_patterns_file.
  split; [by exists i|].
  intros now' id'. unfold get_pattern_by_id, _load_patterns.
  rewrite remove_from_queue_patterns_file, save_patterns_file.
  rewrite saved_not_read; [done|by apply is_time_without_hash|].
  apply forallb_insert; [|done].
  rewrite <-(forallb_lookup hash_free _ i p Hl Hi). by destruct p.
Qed.

(** X7.  When [get_pattern_by_id] finds the id, [dismiss_pattern] returns
    True and writes the patterns document of the list read, with that
    pattern set to DISMISSED.  When the texts of the patterns read hold
    no [#], nothing of the document written is read back: afterwards
    [get_pattern_by_id] finds no pattern, the one dismissed included. *)
Theorem dismiss_pattern_dismisses (now : datetime)
    (pattern_id reason : text) (fs : Files) (p : Pattern.t) :
  get_pattern_by_id now pattern_id fs = Some p →
  is_time now = true →
  forallb hash_free (_load_patterns now fs) = true →
  let res := dismiss_pattern now pattern_id reason fs in
  res.1 = true
  ∧ (∃ i, _load_patterns now fs !! i = Some p
          ∧ patterns_file res.2
            = Some (_save_patterns now
                      (<[i := Pattern.set_status DISMISSED p]>
                         (_load_patterns now fs))))
  ∧ ∀ now' id', get_pattern_by_id now' id' res.2 = None.
Proof.
  intros (i & Hfind & Hi)%found_by_id Hnow Hl res.
  set (q := Pattern.set_status DISMISSED p).
  set (n := Some (default [] (Pattern.notes q) ++ [nl]
                  ++ txt "Dismissed: " ++ reason)).
  assert (res = (true,
                 _remove_from_queue pattern_id
                   (save now (<[i := Pattern.set_notes n q]>
                                (_load_patterns now fs)) fs))) as ->.
  { unfold res, dismiss_pattern. by rewrite Hfind. }
  cbn [fst snd]. split; [done|].
  rewrite remove_from_queue_patterns_file, save_patterns_file.
  assert (Pattern.notes p = None) as Hnotes.
  { assert (p ∈ _load_patterns now fs) as Hp
      by (by eapply list_elem_of_lookup_2).
    unfold _load_patterns in Hp.
    destruct (patterns_file fs) as [content|]; [|by apply elem_of_nil in Hp].
    by apply loaded_fields in Hp as (_ & _ & ?). }
  split.
  - exists i. split; [done|]. rewrite save_insert_notes.
    assert (map (Pattern.set_notes None) (_load_patterns now fs)
            = _load_patterns now fs) as ->.
    { unfold _load_patterns. destruct (patterns_file fs) as [content|]; [|done].
      unfold load_text. rewrite map_map. apply map_ext.
      by intros [[[c pid] name] block]. }
    do 3 f_equal. unfold q. destruct p. cbn in Hnotes. by rewrite Hnotes.
  - intros now' id'. unfold get_pattern_by_id, _load_patterns.
    rewrite remove_from_queue_patterns_file, save_patterns_file.
    rewrite saved_not_read; [done|by apply is_time_without_hash|].
    apply forallb_insert; [|done].
    rewrite <-(forallb_lookup hash_free _ i p Hl Hi). by destruct p.
Qed.

End Laws.

(* ===================================================================== *)
(** * The code at particular inputs

    The runs below read texts as datetimes by [iso_fromisoformat]. *)
(* ===================================================================== *)

#[local] Existing Instance iso_datetime.



Lemma unknown_id_is_reported_witness :
  mark_generalized sample_now (txt "PATTERN-999") handwritten_store
  = (false, handwritten_store)
  ∧ dismiss_pattern sample_now (txt "PATTERN-999") (txt "not applicable")
      handwritten_store
    = (false, handwritten_store).
Proof.
  apply (unknown_id_is_reported sample_now (txt "PATTERN-999")
           (txt "not applicable") handwritten_store).
  apply (bool_decide_unpack _). vm_compute. exact I.
Defined.

Lemma matched_update_counts_every_call_witness :
  let p := fst (process_new_refinement sample_now sample_r1
                  handwritten_store) in
  Pattern.count p = 1 + 1
  ∧ Pattern.refinement_ids p = [txt "REF-2024-0102-001"].
Proof.
  assert (_find_matching_pattern sample_r1
            (_load_patterns sample_now handwritten_store)
          = Some (0%nat, handwritten_pattern "PATTERN-001" sample_now)) as H
    by (vm_compute; reflexivity).
  destruct (matched_update_counts_every_call sample_now sample_r1
              handwritten_store _ _ H) as (Hc & Hin & _).
  split; [exact Hc|].
  apply Hin. apply (bool_decide_unpack _). vm_compute. exact I.
Defined.

Lemma new_id_is_fresh_witness :
  ∃ p, p ∈ _load_patterns sample_now handwritten_store
       ∧ Pattern.id p ≠ get_pattern_id handwritten_store
       ∧ ∃ d n, Pattern.id p = txt "PATTERN-" ++ d
                ∧ get_pattern_id handwritten_store = txt "PATTERN-" ++ pad3 n
                ∧ (int_of d < n)%Z.
Proof.
  eexists. split; [vm_compute; left|].
  apply (new_id_is_fresh sample_now handwritten_store).
  vm_compute. left.
Defined.

Lemma sample_store2_reachable : reachable sample_store2.
Proof.
  apply (reachable_step (Process sample_now sample_r2) sample_store1);
    [|reflexivity].
  apply (reachable_step (Process sample_now sample_r1)
           (empty_store sample_now)); [|reflexivity].
  by apply reachable_empty.
Qed.

Lemma reachable_store_reads_nothing_witness :
  _load_patterns sample_now sample_store2 = []
  ∧ get_ready_patterns sample_now sample_store2 = []
  ∧ check_all_patterns sample_now sample_store2
    = ([], save sample_now [] sample_store2)
  ∧ (∀ r, process_new_refinement sample_now r sample_store2
          = (_create_pattern sample_now sample_store2 r,
             save sample_now [_create_pattern sample_now sample_store2 r]
               sample_store2))
  ∧ ∀ pattern_id reason,
      get_pattern_by_id sample_now pattern_id sample_store2 = None
      ∧ mark_generalized sample_now pattern_id sample_store2
        = (false, sample_store2)
      ∧ dismiss_pattern sample_now pattern_id reason sample_store2
        = (false, sample_store2).
Proof.
  exact (reachable_store_reads_nothing sample_store2
           sample_store2_reachable sample_now).
Defined.

Lemma threshold_queues_pattern_witness :
  let res := process_new_refinement sample_now sample_r1 handwritten_store in
  Pattern.status res.1 = READY
  ∧ ∃ q, queue_file res.2 = Some q ∧ contains (Pattern.id res.1) q = true.
Proof.
  apply (proj1 (threshold_queues_pattern sample_now sample_r1
                  handwritten_store)).
  vm_compute. discriminate.
Defined.

Lemma removal_without_entry_witness :
  _remove_from_queue (txt "PATTERN-002") sample_store2 = sample_store2.
Proof.
  apply (removal_without_entry (txt "PATTERN-002") sample_store2 eq_refl).
  vm_compute. reflexivity.
Defined.

Lemma document_without_heading_is_empty_witness :
  _load_patterns sample_now (empty_store sample_now) = []
  ∧ get_ready_patterns sample_now (empty_store sample_now) = []
  ∧ ∀ pattern_id reason,
      get_pattern_by_id sample_now pattern_id (empty_store sample_now) = None
      ∧ mark_generalized sample_now pattern_id (empty_store sample_now)
        = (false, empty_store sample_now)
      ∧ dismiss_pattern sample_now pattern_id reason (empty_store sample_now)
        = (false, empty_store sample_now).
Proof.
  apply (document_without_heading_is_empty sample_now
           (empty_store sample_now)).
  vm_compute. reflexivity.
Defined.

Lemma entry_without_fields_loads_defaults_witness :
  load_text sample_now
    ([] ++ txt "### " ++ txt "…" ++ txt " PATTERN-" ++ txt "7" ++ txt ": "
     ++ txt " lonely" ++ [nl] ++ txt "no field here")
  = [ Pattern.Build (txt "PATTERN-" ++ txt "7") (strip (txt " lonely"))
        (txt " lonely") [] [] [] 1 TRACKING sample_now sample_now None
        None ].
Proof.
  apply (entry_without_fields_loads_defaults sample_now (txt "…") []
           (txt "7") (txt " lonely") (txt "no field here"));
    first [ reflexivity | discriminate
          | apply (bool_decide_unpack _); vm_compute; exact I ].
Defined.

Lemma mark_generalized_marks_witness :
  let res := mark_generalized sample_now (txt "PATTERN-001")
               handwritten_store in
  res.1 = true
  ∧ (∃ i, _load_patterns sample_now handwritten_store !! i
          = Some (handwritten_pattern "PATTERN-001" sample_now)
          ∧ patterns_file res.2
            = Some (_save_patterns sample_now
                      (<[i := Pattern.set_status GENERALIZED
                               (handwritten_pattern "PATTERN-001"
                                  sample_now)]>
                         (_load_patterns sample_now handwritten_store))))
  ∧ ∀ now' id', get_pattern_by_id now' id' res.2 = None.
Proof.
  apply (mark_generalized_marks sample_now (txt "PATTERN-001")
           handwritten_store (handwritten_pattern "PATTERN-001" sample_now));
    vm_compute; reflexivity.
Defined.

Lemma dismiss_pattern_dismisses_witness :
  let res := dismiss_pattern sample_now (txt "PATTERN-001")
               (txt "not applicable") handwritten_store in
  res.1 = true
  ∧ (∃ i, _load_patterns sample_now handwritten_store !! i
          = Some (handwritten_pattern "PATTERN-001" sample_now)
          ∧ patterns_file res.2
            = Some (_save_patterns sample_now
                      (<[i := Pattern.set_status DISMISSED
                               (handwritten_pattern "PATTERN-001"
                                  sample_now)]>
                         (_load_patterns sample_now handwritten_store))))
  ∧ ∀ now' id', get_pattern_by_id now' id' res.2 = None.
Proof.
  apply (dismiss_pattern_dismisses sample_now (txt "PATTERN-001")
           (txt "not applicable") handwritten_store
           (handwritten_pattern "PATTERN-001" sample_now));
    vm_compute; reflexivity.
Defined.
